(** * GPUMemory::Manager (src/caffe/util/gpu_memory.cpp)

    A shallow embedding of the device-memory manager and the properties of
    its specification.  The manager is a process-wide singleton guarding a
    mode, a per-device table and a handle to a caching pool; every method is
    a computation over that state, the CUDA runtime and the pool.  Fatal
    checks ([CUDA_CHECK], [CHECK]) and undefined behaviour end a computation
    with a [Fault]. *)

From stdpp Require Import base decidable numbers list gmap strings.
From Stdlib Require Import ZArith Lia.

Local Open Scope Z_scope.

(** ** Machine integers *)

(** [size_t] is a 64-bit unsigned integer: arithmetic wraps modulo 2^64. *)
Definition size_t_wrap (x : Z) : Z := x mod 2 ^ 64.
Definition size_t_add (a b : Z) : Z := size_t_wrap (a + b).
Definition size_t_sub (a b : Z) : Z := size_t_wrap (a - b).

(** [unsigned] is a 32-bit unsigned integer. *)
Definition unsigned_wrap (x : Z) : Z := x mod 2 ^ 32.

(** [int] is a 32-bit signed integer; overflow is undefined behaviour. *)
Definition INT_MAX : Z := 2 ^ 31 - 1.

(** The implicit conversion of an [int] compared with a [size_t]. *)
Definition size_t_of_int (i : Z) : Z := size_t_wrap i.

(** ** The CUDA runtime *)

Inductive cudaError_t :=
| cudaSuccess
| cudaErrorMemoryAllocation
| cudaErrorInvalidDevice
| cudaErrorOther (code : Z).

#[global] Instance cudaError_t_eq_dec : EqDecision cudaError_t.
Proof. solve_decision. Defined.

(** The runtime calls whose status the manager checks itself. *)
Inductive Call :=
| GetDevice
| SetDevice (device : Z)
| GetDeviceProperties (device : Z)
| MemGetInfo.

(** The runtime as the manager sees it.  [api_status] is the status the
    runtime answers to a call in its present condition, so that every call
    may fail; the remaining fields are the values it reports.  [hidden]
    stands for whatever else the driver and the pool keep to themselves. *)
Record World {H : Type} := mkWorld {
  api_status : Call -> cudaError_t;
  cur_device : Z;
  totalGlobalMem : Z -> Z;
  mem_free : Z -> Z;
  mem_total : Z -> Z;
  last_error : cudaError_t;
  hidden : H
}.
Arguments World : clear implicits.
Arguments mkWorld {H}.

Definition set_cur_device {H} (d : Z) (w : World H) : World H :=
  mkWorld (api_status w) d (totalGlobalMem w) (mem_free w) (mem_total w)
          (last_error w) (hidden w).

Definition set_last_error {H} (e : cudaError_t) (w : World H) : World H :=
  mkWorld (api_status w) (cur_device w) (totalGlobalMem w) (mem_free w)
          (mem_total w) e (hidden w).

(** ** The caching pool (cub::CachingDeviceAllocator) *)

(** [cached_bytes] maps a device ordinal to its byte totals (a [std::map]). *)
Record TotalBytes := mkTotalBytes { free : Z; live : Z }.

Definition TotalBytes_default : TotalBytes := mkTotalBytes 0 0.

(** The constructor arguments, kept so that they can be inspected. *)
Record PoolArgs := mkPoolArgs {
  bin_growth : Z;
  min_bin : Z;
  max_bin : Z;
  max_cached_bytes : Z;
  skip_cleanup : bool;
  pool_debug : bool
}.

Record CachingDeviceAllocator := mkPool {
  cached_bytes : gmap Z TotalBytes;
  pool_args : PoolArgs
}.

(** The static pointer [cub_allocator]: null, a live object, or a pointer
    to an object that has been deleted. *)
Inductive Handle :=
| Null
| Live (p : CachingDeviceAllocator)
| Dangling.

Definition is_null (h : Handle) : bool :=
  match h with
  | Null => true
  | _ => false
  end.

(** ** The manager *)

(** Modelled from the spec: the enum [Mode] of gpu_memory.hpp, which is not
    among the sources; the spec names its two values DIRECT and
    CACHING_POOL, the code [CUDA_MALLOC] and [CUB_ALLOCATOR]. *)
Inductive Mode := CUDA_MALLOC | CUB_ALLOCATOR.

#[global] Instance Mode_eq_dec : EqDecision Mode.
Proof. solve_decision. Defined.

(** Modelled from the spec: the struct [DevInfo] of gpu_memory.hpp, which is
    not among the sources; an entry nobody has initialised carries
    [total_ = 0], and [flush_count_] is an unsigned counter. *)
Record DevInfo := mkDevInfo { free_ : Z; total_ : Z; flush_count_ : Z }.

Definition DevInfo_default : DevInfo := mkDevInfo 0 0 0.

Inductive LogLine :=
| LogInitialized (pool : string)
| LogDeviceProperties (mem : Z)
| LogMemGetInfo (device free total : Z).

(** What a computation does that can be seen from outside. *)
Inductive Event :=
| EvGetenv (name : string)
| EvGetDevice
| EvSetDevice (device : Z)
| EvGetDeviceProperties (device : Z)
| EvMemGetInfo
| EvGetLastError
| EvMalloc (size : Z)
| EvFree (ptr : Z)
| EvPoolNew (args : PoolArgs)
| EvPoolDelete
| EvDeviceAllocate (size stream : Z)
| EvDeviceFree (ptr : Z)
| EvCachedBytes (device : Z)
| EvVLog (level : Z) (line : LogLine).

(** Events that consult the pool. *)
Definition pool_event (e : Event) : bool :=
  match e with
  | EvPoolNew _ | EvPoolDelete | EvDeviceAllocate _ _ | EvDeviceFree _
  | EvCachedBytes _ => true
  | _ => false
  end.

(** The whole state: the manager's members ([mode_], [debug_],
    [dev_info_]), the file's static [cub_allocator], and the surroundings
    (runtime, environment variables, events so far). *)
Record State {H : Type} := mkState {
  mode_ : Mode;
  debug_ : bool;
  dev_info_ : list DevInfo;
  cub_allocator : Handle;
  world : World H;
  environ : gmap string string;
  trace : list Event
}.
Arguments State : clear implicits.
Arguments mkState {H}.

Inductive Fault :=
| CudaCheckFailed (e : cudaError_t)
| CheckFailed
| NullDereference
| UseAfterDelete
| OutOfBounds
| SignedOverflow
| LengthError
| OutOfFuel.

#[global] Instance Fault_eq_dec : EqDecision Fault.
Proof. solve_decision. Defined.

Inductive Outcome {H : Type} (A : Type) :=
| Ret (a : A) (s : State H)
| Abort (f : Fault).
Arguments Ret {H A}.
Arguments Abort {H A}.

Definition M (H A : Type) : Type := State H -> Outcome (H := H) A.

Definition ret {H A} (a : A) : M H A := fun s => Ret a s.

Definition bind {H A B} (m : M H A) (k : A -> M H B) : M H B :=
  fun s => match m s with
           | Ret a s' => k a s'
           | Abort f => Abort f
           end.

Definition abort {H A} (f : Fault) : M H A := fun _ => Abort f.

#[global] Instance M_ret {H} : MRet (M H) := fun A => ret.
#[global] Instance M_bind {H} : MBind (M H) := fun A B k m => bind m k.

Section Setters.
Context {H : Type}.

Definition set_mode (m : Mode) (s : State H) : State H :=
  mkState m (debug_ s) (dev_info_ s) (cub_allocator s) (world s)
          (environ s) (trace s).

Definition set_debug (b : bool) (s : State H) : State H :=
  mkState (mode_ s) b (dev_info_ s) (cub_allocator s) (world s)
          (environ s) (trace s).

Definition set_dev_info (v : list DevInfo) (s : State H) : State H :=
  mkState (mode_ s) (debug_ s) v (cub_allocator s) (world s)
          (environ s) (trace s).

Definition set_cub_allocator (h : Handle) (s : State H) : State H :=
  mkState (mode_ s) (debug_ s) (dev_info_ s) h (world s)
          (environ s) (trace s).

Definition set_world (w : World H) (s : State H) : State H :=
  mkState (mode_ s) (debug_ s) (dev_info_ s) (cub_allocator s) w
          (environ s) (trace s).

Definition set_environ (env : gmap string string) (s : State H) : State H :=
  mkState (mode_ s) (debug_ s) (dev_info_ s) (cub_allocator s) (world s)
          env (trace s).

Definition set_trace (t : list Event) (s : State H) : State H :=
  mkState (mode_ s) (debug_ s) (dev_info_ s) (cub_allocator s) (world s)
          (environ s) t.

Definition emit (e : Event) : M H unit :=
  fun s => Ret tt (set_trace (trace s ++ [e]) s).

Definition gets {A} (f : State H -> A) : M H A := fun s => Ret (f s) s.

Definition modify (f : State H -> State H) : M H unit :=
  fun s => Ret tt (f s).
End Setters.

(** ** External collaborators

    The raw allocation calls of the runtime and the pool's own methods are
    opaque: each is an arbitrary function of what it can see.  The pointer
    slot of an allocation is passed as its present content and returned as
    its new content.  [new_CachingDeviceAllocator] answers [None] when the
    constructor throws. *)
Record External {H : Type} := mkExternal {
  DeviceAllocate : CachingDeviceAllocator -> World H -> Z -> Z -> Z ->
                   cudaError_t * Z * CachingDeviceAllocator * World H;
  DeviceFree : CachingDeviceAllocator -> World H -> Z ->
               cudaError_t * CachingDeviceAllocator * World H;
  cudaMalloc : World H -> Z -> Z -> cudaError_t * Z * World H;
  cudaFree : World H -> Z -> cudaError_t * World H;
  new_CachingDeviceAllocator : PoolArgs -> World H ->
                               option (CachingDeviceAllocator * World H);
  delete_CachingDeviceAllocator : CachingDeviceAllocator -> World H -> World H
}.
Arguments External : clear implicits.
Arguments mkExternal {H}.

(** ** Vectors indexed by an [int] *)

(** [v[i]]: the index is converted to [size_t], so that a negative one is
    out of range like one past the end. *)
Definition vec_at (v : list DevInfo) (i : Z) : option DevInfo :=
  if decide (0 ≤ i) then v !! Z.to_nat i else None.

(** [v.resize(n)]: new entries are default-constructed. *)
Definition vec_resize (n : nat) (v : list DevInfo) : list DevInfo :=
  take n v ++ replicate (n - length v) DevInfo_default.

Section Manager.
Context {H : Type}.
Variable ext : External H.

(** *** Macros and runtime calls *)

(** Modelled from the spec: the macro [CUDA_CHECK] of caffe/common.hpp,
    which is not among the sources; any driver error is fatal. *)
Definition CUDA_CHECK (e : cudaError_t) : M H unit :=
  if decide (e = cudaSuccess) then mret tt else abort (CudaCheckFailed e).

(** glog's [CHECK]: fatal when the condition is false. *)
Definition CHECK (b : bool) : M H unit :=
  if b then mret tt else abort CheckFailed.

(** glog's [VLOG_IF(level, cond)]: when [cond] holds the line is handed
    to the logger at verbosity [level]; whether the logger prints lines
    of that verbosity is its own configuration. *)
Definition VLOG_IF (level : Z) (cond : bool) (line : LogLine) : M H unit :=
  if cond then emit (EvVLog level line) else mret tt.

Definition getenv (name : string) : M H (option string) :=
  emit (EvGetenv name);;
  env ← gets environ;
  mret (env !! name).

Definition cudaGetDevice : M H (cudaError_t * Z) :=
  emit EvGetDevice;;
  w ← gets world;
  mret (api_status w GetDevice, cur_device w).

Definition cudaSetDevice (device : Z) : M H cudaError_t :=
  emit (EvSetDevice device);;
  w ← gets world;
  let e := api_status w (SetDevice device) in
  (if decide (e = cudaSuccess)
   then modify (set_world (set_cur_device device w))
   else mret tt);;
  mret e.

(** Only [props.totalGlobalMem] is read from the property block. *)
Definition cudaGetDeviceProperties (device : Z) : M H (cudaError_t * Z) :=
  emit (EvGetDeviceProperties device);;
  w ← gets world;
  mret (api_status w (GetDeviceProperties device), totalGlobalMem w device).

(** Free and total memory of the active device. *)
Definition cudaMemGetInfo : M H (cudaError_t * Z * Z) :=
  emit EvMemGetInfo;;
  w ← gets world;
  mret (api_status w MemGetInfo,
        mem_free w (cur_device w), mem_total w (cur_device w)).

(** Returns the last error and resets it. *)
Definition cudaGetLastError : M H cudaError_t :=
  emit EvGetLastError;;
  w ← gets world;
  modify (set_world (set_last_error cudaSuccess w));;
  mret (last_error w).

(** *** Accesses to [dev_info_] and to the pool *)

Definition dev_info_at (i : Z) : M H DevInfo :=
  v ← gets dev_info_;
  match vec_at v i with
  | Some e => mret e
  | None => abort OutOfBounds
  end.

Definition dev_info_store (i : Z) (e : DevInfo) : M H unit :=
  dev_info_at i;;
  modify (fun s => set_dev_info (<[Z.to_nat i := e]> (dev_info_ s)) s).

(** [cub_allocator->...]: the pointer has to point to a live object. *)
Definition deref_cub_allocator : M H CachingDeviceAllocator :=
  h ← gets cub_allocator;
  match h with
  | Live p => mret p
  | Null => abort NullDereference
  | Dangling => abort UseAfterDelete
  end.

(** [cub_allocator->cached_bytes[device]]: [operator[]] of a [std::map]
    inserts a default entry for a key it does not hold. *)
Definition cached_bytes_at (device : Z) : M H TotalBytes :=
  p ← deref_cub_allocator;
  emit (EvCachedBytes device);;
  match cached_bytes p !! device with
  | Some tb => mret tb
  | None =>
      modify (set_cub_allocator
                (Live (mkPool (<[device := TotalBytes_default]> (cached_bytes p))
                              (pool_args p))));;
      mret TotalBytes_default
  end.

(** [delete cub_allocator]: nothing for a null pointer; the pointer keeps
    its value, which no longer points to an object. *)
Definition delete_cub_allocator : M H unit :=
  h ← gets cub_allocator;
  match h with
  | Null => mret tt
  | Live p =>
      emit EvPoolDelete;;
      modify (fun s => set_world (delete_CachingDeviceAllocator ext p (world s)) s);;
      modify (set_cub_allocator Dangling)
  | Dangling => abort UseAfterDelete
  end.

(** [for (int i = i0; i < bound; ++i) body]: the bound is read again at
    every round. *)
Fixpoint for_int (fuel : nat) (i : Z) (bound : State H -> Z)
         (body : Z -> M H unit) : M H unit :=
  match fuel with
  | O => abort OutOfFuel
  | S fuel' =>
      n ← gets bound;
      if size_t_of_int i <? n then
        body i;;
        (if decide (i = INT_MAX) then abort SignedOverflow
         else for_int fuel' (i + 1) bound body)
      else mret tt
  end.

Definition dev_info_size (s : State H) : Z := Z.of_nat (length (dev_info_ s)).

(** [dev_info_.resize(n)]; a size beyond [max_size()] throws
    [std::length_error].  A [DevInfo] takes 24 bytes. *)
Definition vector_max_size : Z := (2 ^ 63 - 1) / 24.

Definition dev_info_resize (n : Z) : M H unit :=
  if decide (vector_max_size < n) then abort LengthError
  else modify (fun s => set_dev_info (vec_resize (Z.to_nat n) (dev_info_ s)) s).

(** [dev_info_[i].flush_count_++] *)
Definition flush_count_incr (i : Z) : M H unit :=
  di ← dev_info_at i;
  dev_info_store i (mkDevInfo (free_ di) (total_ di)
                              (unsigned_wrap (flush_count_ di + 1))).

(** *** The methods of [GPUMemory::Manager] *)

(** The constructor, with the file's static [cub_allocator = 0]. *)
Definition Manager (w : World H) (env : gmap string string) : State H :=
  mkState CUDA_MALLOC false [] Null w env [].

Definition pool_name : M H string :=
  m ← gets mode_;
  match m with
  | CUB_ALLOCATOR => mret "Caching (CUB) GPU Allocator"%string
  | CUDA_MALLOC => mret "Plain CUDA GPU Allocator"%string
  end.

Definition update_dev_info (device : Z) : M H unit :=
  '(e, initial_device) ← cudaGetDevice;
  CUDA_CHECK e;;
  (if decide (device = INT_MAX) then abort SignedOverflow else mret tt);;
  n ← gets dev_info_size;
  (if n <? size_t_of_int (device + 1)
   then dev_info_resize (size_t_of_int (device + 1))
   else mret tt);;
  e ← cudaSetDevice device;
  CUDA_CHECK e;;
  '(e, props_totalGlobalMem) ← cudaGetDeviceProperties device;
  CUDA_CHECK e;;
  di ← dev_info_at device;
  '(e, f, t) ← cudaMemGetInfo;
  CUDA_CHECK e;;
  dev_info_store device (mkDevInfo f t (flush_count_ di));;
  dbg ← gets debug_;
  VLOG_IF 1 dbg (LogDeviceProperties props_totalGlobalMem);;
  di ← dev_info_at device;
  VLOG_IF 1 dbg (LogMemGetInfo device (free_ di) (total_ di));;
  (* Make sure we don't have more that total device memory *)
  di ← dev_info_at device;
  dev_info_store device (mkDevInfo (free_ di)
                                   (Z.min props_totalGlobalMem (total_ di))
                                   (flush_count_ di));;
  (* Here we are adding existing 'busy' allocations to CUDA free memory *)
  di ← dev_info_at device;
  tb ← cached_bytes_at device;
  dev_info_store device (mkDevInfo (Z.min (total_ di)
                                          (size_t_add (free_ di) (live tb)))
                                   (total_ di) (flush_count_ di));;
  e ← cudaSetDevice initial_device;
  CUDA_CHECK e.

Definition init (gpus : list Z) (m : Mode) (debug : bool) : M H unit :=
  env ← getenv "DEBUG_GPU_MEM";
  let debug_env := bool_decide (is_Some env) in
  modify (set_debug (debug || debug_env));;
  let m := if Z.of_nat (length gpus) <=? 0 then CUDA_MALLOC else m in
  match m with
  | CUB_ALLOCATOR =>
      (* try { delete; new } catch (...) { } *)
      delete_cub_allocator;;
      dbg ← gets debug_;
      let args := mkPoolArgs 2 6 22 (size_t_wrap (-1)) false dbg in
      emit (EvPoolNew args);;
      w ← gets world;
      match new_CachingDeviceAllocator ext args w with
      | Some (p, w') =>
          modify (set_world w');; modify (set_cub_allocator (Live p))
      | None => mret tt
      end;;
      h ← gets cub_allocator;
      CHECK (negb (is_null h));;
      for_int (S (length gpus)) 0 (fun _ => Z.of_nat (length gpus))
              (fun i => match gpus !! Z.to_nat i with
                        | Some d => update_dev_info d
                        | None => abort OutOfBounds
                        end)
  | CUDA_MALLOC => mret tt
  end;;
  modify (set_mode m);;
  name ← pool_name;
  VLOG_IF 1 debug (LogInitialized name).

Definition destroy : M H unit :=
  m ← gets mode_;
  match m with
  | CUB_ALLOCATOR =>
      delete_cub_allocator;;
      modify (set_cub_allocator Null)
  | CUDA_MALLOC => mret tt
  end;;
  modify (set_mode CUDA_MALLOC).

(** The refresh of [try_allocate] for one index of the table. *)
Definition refresh_body (cur_device i : Z) : M H unit :=
  di ← dev_info_at i;
  (* only query devices that were initialized *)
  if decide (total_ di ≠ 0) then
    update_dev_info i;;
    (* record which device caused cache flush *)
    if decide (i = cur_device) then flush_count_incr i else mret tt
  else mret tt.

(** [ptr] is the address of the caller's slot: [None] for a null
    address, otherwise the slot's content.  The result is the slot's new
    content and the returned flag. *)
Definition try_allocate (ptr : option Z) (size s : Z) : M H (Z * bool) :=
  CHECK (bool_decide (is_Some ptr));;
  let slot := default 0 ptr in
  m ← gets mode_;
  match m with
  | CUB_ALLOCATOR =>
      (* Clean Cache & Retry logic is inside now *)
      p ← deref_cub_allocator;
      emit (EvDeviceAllocate size s);;
      w ← gets world;
      let '(status, slot', p', w') := DeviceAllocate ext p w slot size s in
      modify (set_cub_allocator (Live p'));;
      modify (set_world w');;
      last_err ← cudaGetLastError;
      (if bool_decide (status ≠ cudaSuccess) || bool_decide (last_err ≠ cudaSuccess)
       then
         '(e, cur_device) ← cudaGetDevice;
         CUDA_CHECK e;;
         n ← gets dev_info_size;
         for_int (S (Z.to_nat n)) 0 dev_info_size (refresh_body cur_device)
       else mret tt);;
      mret (slot', bool_decide (status = cudaSuccess))
  | CUDA_MALLOC =>
      emit (EvMalloc size);;
      w ← gets world;
      let '(status, slot', w') := cudaMalloc ext w slot size in
      modify (set_world w');;
      mret (slot', bool_decide (status = cudaSuccess))
  end.

Definition deallocate (ptr : Z) (stream : Z) : M H unit :=
  (* allow for null pointer deallocation *)
  if decide (ptr = 0) then mret tt
  else
    m ← gets mode_;
    match m with
    | CUB_ALLOCATOR =>
        p ← deref_cub_allocator;
        emit (EvDeviceFree ptr);;
        w ← gets world;
        let '(e, p', w') := DeviceFree ext p w ptr in
        modify (set_cub_allocator (Live p'));;
        modify (set_world w');;
        CUDA_CHECK e
    | CUDA_MALLOC =>
        emit (EvFree ptr);;
        w ← gets world;
        let '(e, w') := cudaFree ext w ptr in
        modify (set_world w');;
        CUDA_CHECK e
    end.

(** The result is the pair written to [*free_mem] and [*total_mem]. *)
Definition GetInfo : M H (Z * Z) :=
  m ← gets mode_;
  match m with
  | CUB_ALLOCATOR =>
      '(e, cur_device) ← cudaGetDevice;
      CUDA_CHECK e;;
      di ← dev_info_at cur_device;
      let total_mem := total_ di in
      (* Free memory is initial free memory minus outstanding allocations. *)
      di ← dev_info_at cur_device;
      tb ← cached_bytes_at cur_device;
      let free_mem := size_t_sub (free_ di) (live tb) in
      mret (free_mem, total_mem)
  | CUDA_MALLOC =>
      '(e, free_mem, total_mem) ← cudaMemGetInfo;
      CUDA_CHECK e;;
      mret (free_mem, total_mem)
  end.
End Manager.

(** * Notions of the specification *)

(** The live byte count the pool holds for a device; a device the map does
    not know counts as zero. *)
Definition live_at (p : CachingDeviceAllocator) (d : Z) : Z :=
  match cached_bytes p !! d with
  | Some tb => live tb
  | None => 0
  end.

(** The pool after [cached_bytes[d]] has been evaluated. *)
Definition touch_cached_bytes (p : CachingDeviceAllocator) (d : Z)
  : CachingDeviceAllocator :=
  match cached_bytes p !! d with
  | Some _ => p
  | None => mkPool (<[d := TotalBytes_default]> (cached_bytes p)) (pool_args p)
  end.

(** The table once it has room for device [d]. *)
Definition grown (d : Z) (v : list DevInfo) : list DevInfo :=
  if Z.of_nat (length v) <? d + 1 then vec_resize (Z.to_nat (d + 1)) v else v.

(** The entry [update_dev_info] stores for device [d]: first the total,
    then the free bytes clamped by that total. *)
Definition refreshed {H} (w : World H) (p : CachingDeviceAllocator) (d : Z)
           (old : DevInfo) : DevInfo :=
  let total := Z.min (totalGlobalMem w d) (mem_total w d) in
  mkDevInfo (Z.min total (size_t_add (mem_free w d) (live_at p d)))
            total (flush_count_ old).

(** The events of one [update_dev_info]. *)
Definition update_events {H} (dbg : bool) (w : World H) (d : Z) : list Event :=
  [EvGetDevice; EvSetDevice d; EvGetDeviceProperties d; EvMemGetInfo] ++
  (if dbg then [EvVLog 1 (LogDeviceProperties (totalGlobalMem w d));
                EvVLog 1 (LogMemGetInfo d (mem_free w d) (mem_total w d))]
   else []) ++
  [EvCachedBytes d; EvSetDevice (cur_device w)].

(** An entry is initialised when its total is not zero. *)
Definition is_initialized (v : list DevInfo) (i : Z) : bool :=
  match vec_at v i with
  | Some e => negb (total_ e =? 0)
  | None => false
  end.

(** Every device whose entry has [total_ != 0], in the order of the table. *)
Definition initialized_devices (v : list DevInfo) : list Z :=
  filter (fun i => is_initialized v i) (seqZ 0 (Z.of_nat (length v))).

(** An entry whose flush is counted when its device [i] is the active
    device [cur]. *)
Definition counted (cur i : Z) (e : DevInfo) : DevInfo :=
  if decide (i = cur)
  then mkDevInfo (free_ e) (total_ e) (unsigned_wrap (flush_count_ e + 1))
  else e.

(** An entry after the refresh that follows an allocation anomaly, when
    [cur] was the active device: an entry that is not initialised is left
    alone. *)
Definition after_anomaly {H} (w : World H) (p : CachingDeviceAllocator)
           (cur i : Z) (old : DevInfo) : DevInfo :=
  if total_ old =? 0 then old else counted cur i (refreshed w p i old).

Inductive Request :=
| ReqInit (gpus : list Z) (m : Mode) (debug : bool)
| ReqDestroy
| ReqTryAllocate (ptr : option Z) (size stream : Z)
| ReqDeallocate (ptr stream : Z)
| ReqGetInfo.

(** A request that puts the manager into caching-pool mode. *)
Definition enters_pool (r : Request) : bool :=
  match r with
  | ReqInit gpus CUB_ALLOCATOR _ => negb (Z.of_nat (length gpus) <=? 0)
  | _ => false
  end.

Section Specification.
Context {H : Type}.
Variable ext : External H.

(** [wp_gen E m Q s]: run from [s], [m] either returns a result and a
    state that satisfy [Q], or stops on a fault that satisfies [E]. *)
Definition wp_gen {A} (E : Fault -> Prop) (m : M H A)
           (Q : A -> State H -> Prop) (s : State H) : Prop :=
  match m s with
  | Ret a s' => Q a s'
  | Abort f => E f
  end.

(** The invariant of the table. *)
Definition dev_info_ok (s : State H) : Prop :=
  Forall (fun e => free_ e <= total_ e) (dev_info_ s).

(** The public methods, as requests served one after the other. *)
Definition serve (r : Request) : M H unit :=
  match r with
  | ReqInit gpus m debug => init ext gpus m debug
  | ReqDestroy => destroy ext
  | ReqTryAllocate ptr size stream => try_allocate ext ptr size stream;; mret tt
  | ReqDeallocate ptr stream => deallocate ext ptr stream
  | ReqGetInfo => GetInfo;; mret tt
  end.

(** The states a process can be in: it starts with a fresh manager,
    calls the methods, and between two calls the rest of the process and
    the driver may change the runtime and the environment. *)
Inductive reachable : State H -> Prop :=
| reachable_start w env : reachable (Manager w env)
| reachable_serve s r s' :
    reachable s -> serve r s = Ret tt s' -> reachable s'
| reachable_outside s w env :
    reachable s -> reachable (set_environ env (set_world w s)).

(** The same, for a manager that was never put into caching-pool mode. *)
Inductive never_pooled : State H -> Prop :=
| never_pooled_start w env : never_pooled (Manager w env)
| never_pooled_serve s r s' :
    never_pooled s -> enters_pool r = false -> serve r s = Ret tt s' ->
    never_pooled s'
| never_pooled_outside s w env :
    never_pooled s -> never_pooled (set_environ env (set_world w s)).

(** The refresh the specification asks for after an anomaly: every
    initialised device is refreshed, and the one among them that is the
    active device has its flush counted. *)
Definition refresh_one (cur_device i : Z) : M H unit :=
  update_dev_info i;;
  if decide (i = cur_device) then flush_count_incr i else mret tt.

Fixpoint for_each (l : list Z) (f : Z -> M H unit) : M H unit :=
  match l with
  | [] => mret tt
  | i :: l' => f i;; for_each l' f
  end.

Definition refresh_initialized (cur_device : Z) : M H unit :=
  v ← gets dev_info_;
  for_each (initialized_devices v) (refresh_one cur_device).

(** [try_allocate] in caching-pool mode as the specification words it: one
    allocation from the pool; then, when the status of the pool is not
    success or an error is left with the runtime, the active device is
    determined and every initialised device is refreshed; the flag returned
    is that of the allocation. *)
Definition try_allocate_pool_spec (ptr : option Z) (size s : Z) : M H (Z * bool) :=
  CHECK (bool_decide (is_Some ptr));;
  p ← deref_cub_allocator;
  emit (EvDeviceAllocate size s);;
  w ← gets world;
  let '(status, slot', p', w') := DeviceAllocate ext p w (default 0 ptr) size s in
  modify (set_cub_allocator (Live p'));;
  modify (set_world w');;
  last_err ← cudaGetLastError;
  (if bool_decide (status ≠ cudaSuccess) || bool_decide (last_err ≠ cudaSuccess)
   then
     '(e, cur_device) ← cudaGetDevice;
     CUDA_CHECK e;;
     refresh_initialized cur_device
   else mret tt);;
  mret (slot', bool_decide (status = cudaSuccess)).

(** The manager's own members are left as they were. *)
Definition same_manager (s t : State H) : Prop :=
  mode_ t = mode_ s /\ debug_ t = debug_ s /\ dev_info_ t = dev_info_ s /\
  cub_allocator t = cub_allocator s /\ environ t = environ s.

(** Two calls, made in [s1] and [s2], behave identically and leave the
    pool alone: same result, same runtime afterwards, same events, none of
    them an event of the pool, and each manager unchanged. *)
Definition agree {A} (s1 s2 : State H) (o1 o2 : Outcome (H := H) A) : Prop :=
  match o1, o2 with
  | Ret a1 t1, Ret a2 t2 =>
      a1 = a2 /\ world t1 = world t2 /\
      same_manager s1 t1 /\ same_manager s2 t2 /\
      exists evs, trace t1 = trace s1 ++ evs /\ trace t2 = trace s2 ++ evs /\
                  Forall (fun e => pool_event e = false) evs
  | Abort f1, Abort f2 => f1 = f2
  | _, _ => False
  end.
End Specification.

(** [wp]: what holds whenever the computation returns; [wp_total]: the
    computation returns, and this holds. *)
Abbreviation wp := (wp_gen (fun _ => True)).
Abbreviation wp_total := (wp_gen (fun _ => False)).

(** ** Concrete surroundings for examples *)

(** A runtime with a single healthy view: every call succeeds, every
    device has 1000 bytes by its properties, and the driver reports 400
    bytes free of 1200. *)
Definition demo_world (cur : Z) : World unit :=
  mkWorld (fun _ => cudaSuccess) cur (fun _ => 1000) (fun _ => 400)
          (fun _ => 1200) cudaSuccess tt.

(** The same runtime after other users have released memory: 900 bytes
    are free. *)
Definition roomy_world (cur : Z) : World unit :=
  mkWorld (fun _ => cudaSuccess) cur (fun _ => 1000) (fun _ => 900)
          (fun _ => 1200) cudaSuccess tt.

(** A pool that has run out of memory, and a pool that serves every
    request and counts the bytes as live on the active device. *)
Definition exhausted_DeviceAllocate (p : CachingDeviceAllocator) (w : World unit)
           (slot size stream : Z)
  : cudaError_t * Z * CachingDeviceAllocator * World unit :=
  (cudaErrorMemoryAllocation, 0, p, set_last_error cudaErrorMemoryAllocation w).

(** A pool whose first attempt failed and whose retry succeeded: the
    status is success, the failed attempt is left as the last error. *)
Definition retried_DeviceAllocate (p : CachingDeviceAllocator) (w : World unit)
           (slot size stream : Z)
  : cudaError_t * Z * CachingDeviceAllocator * World unit :=
  (cudaSuccess, 4096, p, set_last_error cudaErrorMemoryAllocation w).

Definition serving_DeviceAllocate (p : CachingDeviceAllocator) (w : World unit)
           (slot size stream : Z)
  : cudaError_t * Z * CachingDeviceAllocator * World unit :=
  let d := cur_device w in
  let tb := default TotalBytes_default (cached_bytes p !! d) in
  (cudaSuccess, 4096,
   mkPool (<[d := mkTotalBytes (free tb) (size_t_add (live tb) size)]> (cached_bytes p))
          (pool_args p),
   w).

Definition demo_ext (alloc : CachingDeviceAllocator -> World unit -> Z -> Z -> Z ->
                             cudaError_t * Z * CachingDeviceAllocator * World unit)
  : External unit :=
  mkExternal alloc
             (fun p w ptr => (cudaSuccess, p, w))
             (fun w slot size => (cudaSuccess, 4096, w))
             (fun w ptr => (cudaSuccess, w))
             (fun args w => Some (mkPool ∅ args, w))
             (fun p w => w).

Definition demo_pool (l : Z) : CachingDeviceAllocator :=
  mkPool {[ 0 := mkTotalBytes 0 l ]} (mkPoolArgs 2 6 22 (size_t_wrap (-1)) false false).

(** A manager in caching-pool mode with the given table and pool. *)
Definition demo_state (cur : Z) (v : list DevInfo) (p : CachingDeviceAllocator)
  : State unit :=
  mkState CUB_ALLOCATOR false v (Live p) (demo_world cur) ∅ [].

(** The state [update_dev_info 1] leaves when run in
    [demo_state 0 [] (demo_pool 0)]. *)
Definition demo_updated : State unit :=
  mkState CUB_ALLOCATOR false [DevInfo_default; mkDevInfo 400 1000 0]
          (Live (touch_cached_bytes (demo_pool 0) 1)) (demo_world 0) ∅
          (update_events false (demo_world 0) 1).

(** ** Further notions *)

(** The arguments [init] constructs the pool with. *)
Definition init_pool_args {H} (debug : bool) (s : State H) : PoolArgs :=
  mkPoolArgs 2 6 22 (2 ^ 64 - 1) false
             (debug || bool_decide (is_Some (environ s !! "DEBUG_GPU_MEM"%string))).

(** The runtime once [delete cub_allocator] has run. *)
Definition world_after_delete {H} (ext : External H) (s : State H) : World H :=
  match cub_allocator s with
  | Live p => delete_CachingDeviceAllocator ext p (world s)
  | _ => world s
  end.




(** The runtime answers success to every call [update_dev_info] makes for
    device [d]. *)
Definition update_statuses_ok {H} (w : World H) (d : Z) : Prop :=
  api_status w GetDevice = cudaSuccess /\
  api_status w (SetDevice d) = cudaSuccess /\
  api_status w (GetDeviceProperties d) = cudaSuccess /\
  api_status w MemGetInfo = cudaSuccess /\
  api_status w (SetDevice (cur_device w)) = cudaSuccess.

(** The state [update_dev_info 2] leaves when run with a table of one
    entry. *)
Definition demo_grown : State unit :=
  mkState CUB_ALLOCATOR false
          [mkDevInfo 50 900 7; DevInfo_default; mkDevInfo 400 1000 0]
          (Live (touch_cached_bytes (demo_pool 0) 2)) (demo_world 0) ∅
          (update_events false (demo_world 0) 2).

(** The state [update_dev_info 0] leaves when run with an empty table and
    100 live bytes in the pool. *)
Definition demo_primed : State unit :=
  mkState CUB_ALLOCATOR false [mkDevInfo 500 1000 0]
          (Live (demo_pool 100)) (demo_world 0) ∅
          (update_events false (demo_world 0) 0).

(** The state [init] leaves when asked for the caching pool on device 0
    by a fresh manager. *)
Definition demo_init : State unit :=
  mkState CUB_ALLOCATOR false [mkDevInfo 400 1000 0]
          (Live (mkPool {[ 0 := TotalBytes_default ]}
                        (mkPoolArgs 2 6 22 (2 ^ 64 - 1) false false)))
          (demo_world 0) ∅
          ([EvGetenv "DEBUG_GPU_MEM";
            EvPoolNew (mkPoolArgs 2 6 22 (2 ^ 64 - 1) false false)]
           ++ update_events false (demo_world 0) 0).

(** The figures [update_dev_info] stores for device [d] when the runtime
    is [w] and the pool [p]. *)
Definition primed {H} (w : World H) (p : CachingDeviceAllocator) (d : Z)
           (e : DevInfo) : Prop :=
  total_ e = Z.min (totalGlobalMem w d) (mem_total w d) /\
  free_ e = Z.min (total_ e) (size_t_add (mem_free w d) (live_at p d)).

(** The loop of [init] over the devices it is given. *)
Definition init_loop {H} (gpus : list Z) : M H unit :=
  for_int (S (length gpus)) 0 (fun _ => Z.of_nat (length gpus))
          (fun i => match gpus !! Z.to_nat i with
                    | Some d => update_dev_info d
                    | None => abort OutOfBounds
                    end).


(** A runtime whose releases fail. *)
Definition failing_free_ext : External unit :=
  mkExternal serving_DeviceAllocate
             (fun p w ptr => (cudaErrorOther 4, p, w))
             (fun w slot size => (cudaSuccess, 4096, w))
             (fun w ptr => (cudaErrorOther 4, w))
             (fun args w => Some (mkPool ∅ args, w))
             (fun p w => w).

Definition is_try_allocate (r : Request) : bool :=
  match r with
  | ReqTryAllocate _ _ _ => true
  | _ => false
  end.

(** Every entry of [v] is still an entry of [v'], with the flush count it
    had or, for the device [cur] when it is below [k], with one flush
    more. *)
Definition flush_counted (cur k : Z) (v v' : list DevInfo) : Prop :=
  forall i e,
    vec_at v i = Some e ->
    exists e',
      vec_at v' i = Some e' /\
      (flush_count_ e' = flush_count_ e \/
       (i < k /\ i = cur /\
        flush_count_ e' = unsigned_wrap (flush_count_ e + 1))).

(** The state [update_dev_info 2] leaves when run with an empty table. *)
Definition demo_grown_from_empty : State unit :=
  mkState CUB_ALLOCATOR false
          [DevInfo_default; DevInfo_default; mkDevInfo 400 1000 0]
          (Live (touch_cached_bytes (demo_pool 0) 2)) (demo_world 0) ∅
          (update_events false (demo_world 0) 2).

Ltac st_simpl :=
  cbn [mode_ debug_ dev_info_ cub_allocator world environ trace
       set_mode set_debug set_dev_info set_cub_allocator set_world set_environ
       set_trace api_status cur_device totalGlobalMem mem_free mem_total
       last_error hidden set_cur_device set_last_error free_ total_
       flush_count_] in *;
  unfold dev_info_size in *.

Ltac wp_prims :=
  unfold flush_count_incr, dev_info_store, dev_info_at, dev_info_resize,
    cached_bytes_at, delete_cub_allocator, deref_cub_allocator, pool_name,
    cudaGetDevice, cudaSetDevice, cudaGetDeviceProperties, cudaMemGetInfo,
    cudaGetLastError, CUDA_CHECK, CHECK, VLOG_IF, getenv.

(** * Properties *)

(** ** Vectors and machine integers *)

Lemma vec_at_Some v i e : vec_at v i = Some e -> 0 <= i < Z.of_nat (length v).
Proof.
  unfold vec_at. case_decide; [|done]. intros E. apply lookup_lt_Some in E. lia.
Qed.

Lemma vec_at_is_Some v i : 0 <= i < Z.of_nat (length v) -> is_Some (vec_at v i).
Proof.
  intros. unfold vec_at. case_decide; [|lia]. apply lookup_lt_is_Some. lia.
Qed.

Lemma vec_at_None v i : vec_at v i = None -> ~ (0 <= i < Z.of_nat (length v)).
Proof.
  intros E Hb. destruct (vec_at_is_Some v i Hb) as [e He]. congruence.
Qed.

Lemma vec_at_insert_eq v i x :
  0 <= i < Z.of_nat (length v) -> vec_at (<[Z.to_nat i := x]> v) i = Some x.
Proof.
  intros. unfold vec_at. case_decide; [|lia].
  apply list_lookup_insert_eq. lia.
Qed.

Lemma vec_at_insert_ne v i j x :
  i <> j -> 0 <= i -> vec_at (<[Z.to_nat i := x]> v) j = vec_at v j.
Proof.
  intros. unfold vec_at. case_decide; [|done].
  apply list_lookup_insert_ne. lia.
Qed.

Lemma length_vec_resize n v : length (vec_resize n v) = n.
Proof.
  unfold vec_resize. rewrite length_app, length_take, length_replicate. lia.
Qed.

Lemma grown_same d v : 0 <= d < Z.of_nat (length v) -> grown d v = v.
Proof.
  intros. unfold grown.
  destruct (Z.ltb_spec (Z.of_nat (length v)) (d + 1)); [lia|done].
Qed.

Lemma grown_resized d v :
  0 <= d < Z.of_nat (Z.to_nat (size_t_of_int (d + 1))) ->
  (Z.of_nat (length v) <? size_t_of_int (d + 1)) = true ->
  grown d v = vec_resize (Z.to_nat (size_t_of_int (d + 1))) v.
Proof.
  intros Hd Hlt. apply Z.ltb_lt in Hlt.
  assert (Hsz : size_t_of_int (d + 1) = d + 1).
  { unfold size_t_of_int, size_t_wrap in *.
    pose proof (Z.mod_le (d + 1) (2 ^ 64)). lia. }
  rewrite Hsz in *. unfold grown.
  destruct (Z.ltb_spec (Z.of_nat (length v)) (d + 1)); [done|lia].
Qed.

Lemma size_t_of_int_small i : 0 <= i < 2 ^ 64 -> size_t_of_int i = i.
Proof. intros. unfold size_t_of_int, size_t_wrap. by apply Z.mod_small. Qed.

Lemma set_cur_device_restore {H} (w : World H) d :
  set_cur_device (cur_device w) (set_cur_device d w) = w.
Proof. by destruct w. Qed.

(** ** Rules for [wp] *)

Section Rules.
Context {H : Type}.

Lemma wp_Ret {A} E (m : M H A) Q s a s' :
  wp_gen E m Q s -> m s = Ret a s' -> Q a s'.
Proof. unfold wp_gen. intros Hw Hm. by rewrite Hm in Hw. Qed.

Lemma wp_total_Ret {A} (m : M H A) Q s :
  wp_total m Q s -> exists a s', m s = Ret a s' /\ Q a s'.
Proof. unfold wp_gen. destruct (m s); [eauto|done]. Qed.

Lemma wp_Abort {A} E (m : M H A) Q s f :
  wp_gen E m Q s -> m s = Abort f -> E f.
Proof. unfold wp_gen. intros Hw Hm. by rewrite Hm in Hw. Qed.

Lemma wp_only_Abort {A} E (m : M H A) s :
  wp_gen E m (fun _ _ => False) s -> exists f, m s = Abort f /\ E f.
Proof. unfold wp_gen. destruct (m s); [done|eauto]. Qed.

Lemma wp_mono {A} E (m : M H A) (Q Q' : A -> State H -> Prop) s :
  wp_gen E m Q s -> (forall a s', Q a s' -> Q' a s') -> wp_gen E m Q' s.
Proof. unfold wp_gen. destruct (m s); auto. Qed.

Lemma wp_bind {A B} E (m : M H A) (k : A -> M H B) Q s :
  wp_gen E m (fun a => wp_gen E (k a) Q) s -> wp_gen E (m ≫= k) Q s.
Proof. unfold wp_gen, mbind, M_bind, bind. by destruct (m s). Qed.

Lemma wp_mret {A} E (a : A) (Q : A -> State H -> Prop) s :
  Q a s -> wp_gen E (mret a) Q s.
Proof. done. Qed.

Lemma wp_gets {A} E (f : State H -> A) (Q : A -> State H -> Prop) s :
  Q (f s) s -> wp_gen E (gets f) Q s.
Proof. done. Qed.

Lemma wp_modify E (f : State H -> State H) (Q : unit -> State H -> Prop) s :
  Q tt (f s) -> wp_gen E (modify f) Q s.
Proof. done. Qed.

Lemma wp_emit E e (Q : unit -> State H -> Prop) s :
  Q tt (set_trace (trace s ++ [e]) s) -> wp_gen E (emit e) Q s.
Proof. done. Qed.

Lemma wp_abort {A} (E : Fault -> Prop) f (Q : A -> State H -> Prop) s :
  E f -> wp_gen E (abort f) Q s.
Proof. done. Qed.

(** A loop keeps what every round keeps. *)
Lemma wp_for_int (I : State H -> Prop) bound body :
  (forall j s, I s -> wp (body j) (fun _ => I) s) ->
  forall fuel i s, I s -> wp (for_int fuel i bound body) (fun _ => I) s.
Proof.
  intros Hbody. induction fuel as [|fuel IH]; intros i s Hs; [done|].
  cbn [for_int]. apply wp_bind, wp_gets.
  destruct (size_t_of_int i <? bound s); [|done].
  apply wp_bind. eapply wp_mono; [by apply Hbody|].
  intros ? s1 Hs1. cbv beta. destruct (decide (i = INT_MAX)); [done|].
  by apply IH.
Qed.
(** A loop that makes at least one round establishes what its first
    round establishes and the later ones keep. *)
Lemma wp_for_int_first (I : State H -> Prop) bound body fuel s :
  0 < bound s ->
  wp (body 0) (fun _ => I) s ->
  (forall j s, I s -> wp (body j) (fun _ => I) s) ->
  wp (for_int (S fuel) 0 bound body) (fun _ => I) s.
Proof.
  intros Hb H0 Hbody. cbn [for_int]. apply wp_bind, wp_gets.
  change (size_t_of_int 0) with 0.
  destruct (Z.ltb_spec 0 (bound s)); [|lia].
  apply wp_bind. eapply wp_mono; [exact H0|].
  intros ? s1 Hs1. cbv beta. destruct (decide (0 = INT_MAX)); [done|].
  by apply wp_for_int.
Qed.

(** A loop whose bound stays put has fuel enough when it is given more
    rounds than are left. *)
Lemma wp_for_int_fuel (E : Fault -> Prop) (I : State H -> Prop) bound body :
  (forall f, f <> OutOfFuel -> E f) ->
  (forall j s, I s -> wp_gen E (body j) (fun _ s' => I s' /\ bound s' = bound s) s) ->
  forall fuel i s,
    I s -> 0 <= i <= INT_MAX -> Z.max 0 (bound s - i) < Z.of_nat fuel ->
    wp_gen E (for_int fuel i bound body) (fun _ s' => I s') s.
Proof.
  intros HE Hbody. unfold INT_MAX.
  induction fuel as [|fuel IH]; intros i s Hs Hi Hfuel; [lia|].
  cbn [for_int]. apply wp_bind, wp_gets.
  rewrite size_t_of_int_small by lia.
  destruct (Z.ltb_spec i (bound s)); [|done].
  apply wp_bind. eapply wp_mono; [by apply Hbody|].
  intros ? s1 [Hs1 Hb]. cbv beta.
  destruct (decide (i = INT_MAX)); [by apply wp_abort, HE|].
  unfold INT_MAX in *. apply IH; [done|lia|lia].
Qed.
End Rules.

(** Two equations about the same term are made into one. *)
Ltac merge_eqs :=
  repeat match goal with
         | H1 : ?t = _, H2 : ?t = _ |- _ => rewrite H1 in H2
         end.

Ltac wp_step :=
  lazymatch goal with
  | |- wp_gen _ (mbind _ _) _ _ => apply wp_bind
  | |- wp_gen _ (mret _) _ _ => apply wp_mret
  | |- wp_gen _ (gets _) _ _ => apply wp_gets
  | |- wp_gen _ (modify _) _ _ => apply wp_modify
  | |- wp_gen _ (emit _) _ _ => apply wp_emit
  | |- wp_gen _ (abort _) _ _ => apply wp_abort; try exact I
  | |- wp_gen _ (if decide ?P then _ else _) _ _ =>
      destruct (decide P); try contradiction
  | |- wp_gen _ (if ?b then _ else _) _ _ => destruct b eqn:?
  | |- wp_gen _ (match vec_at (<[Z.to_nat ?i := ?x]> ?v) ?i with _ => _ end) _ _ =>
      rewrite (vec_at_insert_eq v i x) by (rewrite ?length_insert; lia)
  | |- wp_gen _ (match vec_at ?v ?i with _ => _ end) _ _ =>
      let E := fresh "Hat" in
      destruct (vec_at v i) eqn:E; [pose proof (vec_at_Some _ _ _ E)|]
  | |- wp_gen _ (match ?x with _ => _ end) _ _ => destruct x eqn:?
  end; cbv beta iota zeta; st_simpl; merge_eqs; simplify_eq; try contradiction.

(** Uses what is known of a called method, here [lem]. *)
Tactic Notation "wp_call" uconstr(lem) :=
  eapply wp_mono; [apply lem; try done | intros ? ? ?; cbv beta].

Tactic Notation "wp_call" uconstr(lem) "as" ident(s1) simple_intropattern(pat) :=
  eapply wp_mono; [apply lem; try done | intros ? s1 pat; cbv beta].

(** ** [update_dev_info] *)

Section Properties.
Context {H : Type}.
Variable ext : External H.

(** What [update_dev_info] leaves behind when it returns; it never stops
    for want of fuel, having no loop. *)
Lemma update_dev_info_spec_gen (E : Fault -> Prop) d (s : State H) :
  (forall f, f <> OutOfFuel -> E f) ->
  wp_gen E (update_dev_info d)
     (fun _ s' => exists p old,
        cub_allocator s = Live p /\ 0 <= d /\ d <> INT_MAX /\
        vec_at (grown d (dev_info_ s)) d = Some old /\
        dev_info_ s' = <[Z.to_nat d := refreshed (world s) p d old]>
                         (grown d (dev_info_ s)) /\
        cub_allocator s' = Live (touch_cached_bytes p d) /\
        world s' = world s /\ mode_ s' = mode_ s /\ debug_ s' = debug_ s /\
        environ s' = environ s /\
        trace s' = trace s ++ update_events (debug_ s) (world s) d) s.
Proof.
  intros HE. unfold update_dev_info. wp_prims.
  repeat wp_step.
  all: try by apply HE.
  all: rewrite ?length_vec_resize in *.
  all: match goal with
       | Hp : cub_allocator _ = Live ?p, Ho : vec_at _ _ = Some ?old |- _ =>
           exists p, old
       end.
  all: match goal with
       | Hb : (_ <? _) = true |- _ => rewrite (grown_resized d) by done
       | Hb : (_ <? _) = false |- _ => rewrite (grown_same d) by done
       end.
  all: rewrite ?list_insert_insert_eq, ?set_cur_device_restore.
  all: unfold refreshed, touch_cached_bytes, live_at, update_events.
  all: repeat match goal with
              | Hc : cached_bytes _ !! _ = _ |- _ => rewrite Hc; clear Hc
              | Hc : debug_ _ = _ |- _ => rewrite Hc; clear Hc
              end.
  all: rewrite <- ?app_assoc; cbn [app].
  all: split_and!; try done; lia.
Qed.

Lemma update_dev_info_spec d (s : State H) :
  wp (update_dev_info d)
     (fun _ s' => exists p old,
        cub_allocator s = Live p /\ 0 <= d /\ d <> INT_MAX /\
        vec_at (grown d (dev_info_ s)) d = Some old /\
        dev_info_ s' = <[Z.to_nat d := refreshed (world s) p d old]>
                         (grown d (dev_info_ s)) /\
        cub_allocator s' = Live (touch_cached_bytes p d) /\
        world s' = world s /\ mode_ s' = mode_ s /\ debug_ s' = debug_ s /\
        environ s' = environ s /\
        trace s' = trace s ++ update_events (debug_ s) (world s) d) s.
Proof. by apply update_dev_info_spec_gen. Qed.

Lemma update_dev_info_Ret d (s s' : State H) :
  update_dev_info d s = Ret tt s' ->
  exists p old,
    cub_allocator s = Live p /\ 0 <= d /\ d <> INT_MAX /\
    vec_at (grown d (dev_info_ s)) d = Some old /\
    dev_info_ s' = <[Z.to_nat d := refreshed (world s) p d old]>
                     (grown d (dev_info_ s)) /\
    cub_allocator s' = Live (touch_cached_bytes p d) /\
    world s' = world s /\ mode_ s' = mode_ s /\ debug_ s' = debug_ s /\
    environ s' = environ s /\
    trace s' = trace s ++ update_events (debug_ s) (world s) d.
Proof. intros E. exact (wp_Ret _ _ _ _ _ _ (update_dev_info_spec d s) E). Qed.

Lemma refreshed_free_le_total (w : World H) p d old :
  free_ (refreshed w p d old) <= total_ (refreshed w p d old).
Proof. unfold refreshed. cbn. apply Z.le_min_l. Qed.

Lemma Forall_grown (P : DevInfo -> Prop) d v :
  P DevInfo_default -> Forall P v -> Forall P (grown d v).
Proof.
  intros Hd Hv. unfold grown, vec_resize. case_match; [|done].
  apply Forall_app. split; [by apply Forall_take|].
  by apply Forall_replicate.
Qed.

(** [update_dev_info] keeps the invariant of the table. *)
Lemma update_dev_info_ok d (s : State H) :
  dev_info_ok s -> wp (update_dev_info d) (fun _ s' => dev_info_ok s') s.
Proof.
  intros Hs. eapply wp_mono; [apply update_dev_info_spec|].
  intros ? s' (p & old & _ & _ & _ & _ & Hv & _). unfold dev_info_ok in *.
  rewrite Hv. apply Forall_insert.
  - apply Forall_grown; [done|apply Hs].
  - apply refreshed_free_le_total.
Qed.

(** ** The invariant of the table *)

Lemma flush_count_incr_ok i (s : State H) :
  dev_info_ok s -> wp (flush_count_incr i) (fun _ s' => dev_info_ok s') s.
Proof.
  intros Hs. unfold flush_count_incr. wp_prims. repeat wp_step.
  unfold dev_info_ok in *. st_simpl. apply Forall_insert; [done|]. cbn.
  match goal with
  | Hat : vec_at _ _ = Some ?e |- _ =>
      unfold vec_at in Hat; case_decide; [|done];
      apply (Forall_lookup_1 _ _ _ _ Hs Hat)
  end.
Qed.

Lemma refresh_body_ok cur i (s : State H) :
  dev_info_ok s -> wp (refresh_body cur i) (fun _ s' => dev_info_ok s') s.
Proof.
  intros Hs. unfold refresh_body, dev_info_at.
  repeat wp_step; try done.
  wp_call update_dev_info_ok.
  wp_step; [|done]. by apply flush_count_incr_ok.
Qed.

Lemma try_allocate_ok ptr size strm (s : State H) :
  dev_info_ok s ->
  wp (try_allocate ext ptr size strm) (fun _ s' => dev_info_ok s') s.
Proof.
  intros Hs. unfold try_allocate. wp_prims.
  repeat wp_step; try done.
  all: wp_call (wp_for_int dev_info_ok); [apply refresh_body_ok|].
  all: repeat wp_step; done.
Qed.

Lemma init_ok gpus m debug (s : State H) :
  dev_info_ok s -> wp (init ext gpus m debug) (fun _ s' => dev_info_ok s') s.
Proof.
  intros Hs. unfold init. wp_prims.
  repeat wp_step; try done.
  all: wp_call (wp_for_int dev_info_ok);
    [intros j s0 Hs0; wp_step; [by apply update_dev_info_ok|done]|].
  all: repeat wp_step; done.
Qed.

Lemma destroy_ok (s : State H) :
  dev_info_ok s -> wp (destroy ext) (fun _ s' => dev_info_ok s') s.
Proof. intros Hs. unfold destroy. wp_prims. repeat wp_step; done. Qed.

Lemma deallocate_ok ptr strm (s : State H) :
  dev_info_ok s -> wp (deallocate ext ptr strm) (fun _ s' => dev_info_ok s') s.
Proof. intros Hs. unfold deallocate. wp_prims. repeat wp_step; done. Qed.

Lemma GetInfo_ok (s : State H) :
  dev_info_ok s -> wp GetInfo (fun _ s' => dev_info_ok s') s.
Proof. intros Hs. unfold GetInfo. wp_prims. repeat wp_step; done. Qed.

Lemma serve_ok r (s : State H) :
  dev_info_ok s -> wp (serve ext r) (fun _ s' => dev_info_ok s') s.
Proof.
  intros Hs. destruct r; cbn [serve].
  - by apply init_ok.
  - by apply destroy_ok.
  - wp_step. wp_call try_allocate_ok. by wp_step.
  - by apply deallocate_ok.
  - wp_step. wp_call GetInfo_ok. by wp_step.
Qed.

(** Every state a process can be in satisfies the invariant. *)
Lemma reachable_ok (s : State H) : reachable ext s -> dev_info_ok s.
Proof.
  induction 1 as [w env|s r s' _ IH E|s w env _ IH].
  - by apply Forall_nil.
  - exact (wp_Ret _ _ _ _ _ _ (serve_ok r s IH) E).
  - exact IH.
Qed.

(** ** Claims about [update_dev_info] *)

(** C1. After every call of [update_dev_info] that returns, the entry it
    refreshed has [free_ <= total_] whatever the driver, the property query
    and the pool reported; every other entry keeps the bound it had, so the
    whole table satisfies it, in particular in every state a process can
    reach. *)
Theorem update_dev_info_free_le_total d (s s' : State H) :
  update_dev_info d s = Ret tt s' ->
  (exists e, vec_at (dev_info_ s') d = Some e /\ free_ e <= total_ e) /\
  (dev_info_ok s -> dev_info_ok s') /\
  (reachable ext s -> dev_info_ok s').
Proof.
  intros E.
  assert (Hkeep : dev_info_ok s -> dev_info_ok s').
  { intros Hs. exact (wp_Ret _ _ _ _ _ _ (update_dev_info_ok d s Hs) E). }
  split; [|split; [done|]].
  - destruct (update_dev_info_Ret d s s' E)
      as (p & old & _ & Hd & _ & Hold & Hv & _).
    exists (refreshed (world s) p d old). split.
    + rewrite Hv. apply vec_at_insert_eq. by eapply vec_at_Some.
    + apply refreshed_free_le_total.
  - intros Hr. apply Hkeep. by eapply reachable_ok.
Qed.

(** C3. [update_dev_info] stores, for the device it is given, first
    [total_ = min(hardware total, driver total)] and then
    [free_ = min(total_, driver free + live bytes of the pool)], the sum
    being the one of [size_t]: it is the exact sum whenever that fits. *)
Theorem update_dev_info_total_then_free d (s s' : State H) :
  update_dev_info d s = Ret tt s' ->
  exists p e,
    cub_allocator s = Live p /\ vec_at (dev_info_ s') d = Some e /\
    total_ e = Z.min (totalGlobalMem (world s) d) (mem_total (world s) d) /\
    free_ e = Z.min (total_ e) (size_t_add (mem_free (world s) d) (live_at p d)) /\
    (0 <= mem_free (world s) d + live_at p d < 2 ^ 64 ->
     free_ e = Z.min (total_ e) (mem_free (world s) d + live_at p d)).
Proof.
  intros E.
  destruct (update_dev_info_Ret d s s' E)
    as (p & old & Hp & Hd & _ & Hold & Hv & _).
  exists p, (refreshed (world s) p d old). split_and!; try done.
  - rewrite Hv. apply vec_at_insert_eq. by eapply vec_at_Some.
  - intros Hfit. cbn. unfold size_t_add, size_t_wrap.
    by rewrite Z.mod_small.
Qed.

(** C7. [update_dev_info] reads the active device first and selects it
    again last: when it returns, the active device, and the runtime as a
    whole, are what they were at the call. *)
Theorem update_dev_info_restores_device d (s s' : State H) :
  update_dev_info d s = Ret tt s' ->
  cur_device (world s') = cur_device (world s) /\
  world s' = world s /\
  exists evs, trace s' = trace s ++ EvGetDevice :: EvSetDevice d :: evs
                                 ++ [EvSetDevice (cur_device (world s))].
Proof.
  intros E.
  destruct (update_dev_info_Ret d s s' E)
    as (p & old & _ & _ & _ & _ & _ & _ & Hw & _ & _ & _ & Ht).
  split_and!; [by rewrite Hw|done|].
  rewrite Ht. unfold update_events.
  eexists (_ :: _ :: _ ++ [_]). cbn [app]. by rewrite <- app_assoc.
Qed.

End Properties.

(** ** Examples of [update_dev_info] *)

Lemma update_dev_info_free_le_total_witness :
  update_dev_info 1 (demo_state 0 [] (demo_pool 0)) = Ret tt demo_updated /\
  ((exists e, vec_at (dev_info_ demo_updated) 1 = Some e /\ free_ e <= total_ e) /\
   (dev_info_ok (demo_state 0 [] (demo_pool 0)) -> dev_info_ok demo_updated) /\
   (reachable (demo_ext exhausted_DeviceAllocate) (demo_state 0 [] (demo_pool 0)) ->
    dev_info_ok demo_updated)).
Proof.
  assert (E : update_dev_info 1 (demo_state 0 [] (demo_pool 0)) = Ret tt demo_updated)
    by (vm_compute; reflexivity).
  split; [exact E|].
  exact (update_dev_info_free_le_total (demo_ext exhausted_DeviceAllocate) 1 _ _ E).
Defined.

Lemma update_dev_info_total_then_free_witness :
  update_dev_info 1 (demo_state 0 [] (demo_pool 0)) = Ret tt demo_updated /\
  exists p e,
    cub_allocator (demo_state 0 [] (demo_pool 0)) = Live p /\
    vec_at (dev_info_ demo_updated) 1 = Some e /\
    total_ e = Z.min 1000 1200 /\
    free_ e = Z.min (total_ e) (size_t_add 400 (live_at p 1)) /\
    (0 <= 400 + live_at p 1 < 2 ^ 64 -> free_ e = Z.min (total_ e) (400 + live_at p 1)).
Proof.
  assert (E : update_dev_info 1 (demo_state 0 [] (demo_pool 0)) = Ret tt demo_updated)
    by (vm_compute; reflexivity).
  split; [exact E|].
  exact (update_dev_info_total_then_free 1 _ _ E).
Defined.

Lemma update_dev_info_restores_device_witness :
  update_dev_info 1 (demo_state 0 [] (demo_pool 0)) = Ret tt demo_updated /\
  cur_device (world demo_updated) = 0.
Proof.
  assert (E : update_dev_info 1 (demo_state 0 [] (demo_pool 0)) = Ret tt demo_updated)
    by (vm_compute; reflexivity).
  split; [exact E|].
  exact (proj1 (update_dev_info_restores_device 1 _ _ E)).
Defined.

(** ** [GetInfo] *)

Section GetInfoProperties.
Context {H : Type}.

(** [GetInfo] in caching-pool mode, when the active device has an entry
    and the pool is alive. *)
Lemma GetInfo_pool_spec (s : State H) p e :
  mode_ s = CUB_ALLOCATOR ->
  api_status (world s) GetDevice = cudaSuccess ->
  cub_allocator s = Live p ->
  vec_at (dev_info_ s) (cur_device (world s)) = Some e ->
  wp_total GetInfo
    (fun r s' =>
       r = (size_t_sub (free_ e) (live_at p (cur_device (world s))), total_ e) /\
       trace s' = trace s ++ [EvGetDevice; EvCachedBytes (cur_device (world s))] /\
       world s' = world s /\ dev_info_ s' = dev_info_ s /\
       mode_ s' = mode_ s /\ debug_ s' = debug_ s /\ environ s' = environ s /\
       cub_allocator s' = Live (touch_cached_bytes p (cur_device (world s)))) s.
Proof.
  intros Hm Hapi Hp He. unfold GetInfo. wp_prims.
  repeat wp_step.
  all: unfold live_at, touch_cached_bytes.
  all: repeat match goal with
              | Hc : cached_bytes _ !! _ = _ |- _ => rewrite Hc; clear Hc
              end.
  all: rewrite <- ?app_assoc; cbn [app]; by split_and!.
Qed.
(** C4. In caching-pool mode [GetInfo] returns the stored total of the
    active device and its stored free bytes minus the live bytes the pool
    holds for it now (a [size_t] difference, the exact one when the pool
    holds no more than the stored free bytes); it asks the runtime for the
    active device only, not for its memory. *)
Theorem GetInfo_caching_pool (s : State H) p e :
  mode_ s = CUB_ALLOCATOR ->
  api_status (world s) GetDevice = cudaSuccess ->
  cub_allocator s = Live p ->
  vec_at (dev_info_ s) (cur_device (world s)) = Some e ->
  exists s',
    GetInfo s = Ret (size_t_sub (free_ e) (live_at p (cur_device (world s))),
                     total_ e) s' /\
    trace s' = trace s ++ [EvGetDevice; EvCachedBytes (cur_device (world s))] /\
    world s' = world s /\ dev_info_ s' = dev_info_ s /\
    (0 <= live_at p (cur_device (world s)) <= free_ e -> free_ e < 2 ^ 64 ->
     size_t_sub (free_ e) (live_at p (cur_device (world s)))
     = free_ e - live_at p (cur_device (world s))).
Proof.
  intros Hm Hapi Hp He.
  destruct (wp_total_Ret _ _ _ (GetInfo_pool_spec s p e Hm Hapi Hp He))
    as (r & s' & Hrun & -> & Ht & Hw & Hv & _).
  exists s'. split_and!; try done.
  intros Hl Hf. unfold size_t_sub, size_t_wrap. apply Z.mod_small. lia.
Qed.

(** C9. The subtraction of [GetInfo] is the one of [size_t]: when the pool
    holds more live bytes for the active device than the stored free
    bytes, the free memory returned is the difference plus 2^64, which is
    more than the total returned unless the total is itself that large. *)
Theorem GetInfo_free_mem_wraps (s : State H) p e :
  mode_ s = CUB_ALLOCATOR ->
  api_status (world s) GetDevice = cudaSuccess ->
  cub_allocator s = Live p ->
  vec_at (dev_info_ s) (cur_device (world s)) = Some e ->
  0 <= free_ e < live_at p (cur_device (world s)) ->
  live_at p (cur_device (world s)) < 2 ^ 64 ->
  exists free_mem s',
    GetInfo s = Ret (free_mem, total_ e) s' /\
    free_mem = free_ e - live_at p (cur_device (world s)) + 2 ^ 64 /\
    (total_ e + live_at p (cur_device (world s)) < free_ e + 2 ^ 64 ->
     total_ e < free_mem).
Proof.
  intros Hm Hapi Hp He Hlt Hl.
  destruct (wp_total_Ret _ _ _ (GetInfo_pool_spec s p e Hm Hapi Hp He))
    as (r & s' & Hrun & -> & _).
  assert (Hwrap : size_t_sub (free_ e) (live_at p (cur_device (world s)))
                  = free_ e - live_at p (cur_device (world s)) + 2 ^ 64).
  { unfold size_t_sub, size_t_wrap.
    rewrite <- (Z_mod_plus_full _ 1 (2 ^ 64)). apply Z.mod_small. lia. }
  eexists _, s'. split_and!; [exact Hrun|exact Hwrap|].
  rewrite Hwrap. lia.
Qed.

(** C10. In caching-pool mode [GetInfo] indexes the table by the active
    device without a check: it runs out of the table exactly when the
    active device is not below the size of the table. *)
Theorem GetInfo_unchecked_index (s : State H) :
  mode_ s = CUB_ALLOCATOR ->
  api_status (world s) GetDevice = cudaSuccess ->
  (GetInfo s = Abort OutOfBounds <->
   ~ (0 <= cur_device (world s) < Z.of_nat (length (dev_info_ s)))).
Proof.
  intros Hm Hapi. split.
  - intros Hrun Hin.
    assert (Hw : wp_gen (fun f => f <> OutOfBounds) GetInfo (fun _ _ => True) s).
    { destruct (vec_at_is_Some _ _ Hin) as [e He].
      unfold GetInfo. wp_prims. repeat wp_step; done. }
    by apply (wp_Abort _ _ _ _ _ Hw Hrun).
  - intros Hout.
    assert (Hw : wp_gen (fun f => f = OutOfBounds) GetInfo (fun _ _ => False) s).
    { unfold GetInfo. wp_prims. repeat wp_step; done. }
    destruct (wp_only_Abort _ _ _ Hw) as (f & Hrun & ->). exact Hrun.
Qed.
End GetInfoProperties.

(** ** Examples of [GetInfo] *)

Lemma GetInfo_caching_pool_witness :
  exists s',
    GetInfo (demo_state 0 [mkDevInfo 400 1000 0] (demo_pool 100))
    = Ret (300, 1000) s' /\
    trace s' = [EvGetDevice; EvCachedBytes 0].
Proof.
  destruct (GetInfo_caching_pool
              (demo_state 0 [mkDevInfo 400 1000 0] (demo_pool 100))
              (demo_pool 100) (mkDevInfo 400 1000 0)
              eq_refl eq_refl eq_refl eq_refl)
    as (s' & Hrun & Ht & _).
  exists s'. split; [exact Hrun|exact Ht].
Defined.

Lemma GetInfo_free_mem_wraps_witness :
  exists s',
    GetInfo (demo_state 0 [mkDevInfo 400 1000 0] (demo_pool 500))
    = Ret (2 ^ 64 - 100, 1000) s' /\ 1000 < 2 ^ 64 - 100.
Proof.
  destruct (GetInfo_free_mem_wraps
              (demo_state 0 [mkDevInfo 400 1000 0] (demo_pool 500))
              (demo_pool 500) (mkDevInfo 400 1000 0)
              eq_refl eq_refl eq_refl eq_refl)
    as (free_mem & s' & Hrun & -> & Hgt); [vm_compute; split; [discriminate|reflexivity]|reflexivity|].
  exists s'. split; [exact Hrun|reflexivity].
Defined.

(** The wrap-around is within reach: the table is refreshed while 400
    bytes are free, memory is released by others, 500 bytes are then
    allocated through the pool, and [GetInfo] subtracts them from the
    stale 400. *)
Example GetInfo_wraps_after_cache_growth :
  exists s1 s2 s3,
    init (demo_ext serving_DeviceAllocate) [0] CUB_ALLOCATOR false
         (Manager (demo_world 0) ∅) = Ret tt s1 /\
    try_allocate (demo_ext serving_DeviceAllocate) (Some 0) 500 0
                 (set_world (roomy_world 0) s1) = Ret (4096, true) s2 /\
    GetInfo s2 = Ret (2 ^ 64 - 100, 1000) s3.
Proof.
  eexists _, _, _. split; [vm_compute; reflexivity|].
  split; [vm_compute; reflexivity|]. vm_compute. reflexivity.
Qed.

Lemma GetInfo_unchecked_index_witness :
  GetInfo (demo_state 1 [mkDevInfo 400 1000 0] (demo_pool 0)) = Abort OutOfBounds.
Proof.
  apply (GetInfo_unchecked_index
           (demo_state 1 [mkDevInfo 400 1000 0] (demo_pool 0)) eq_refl eq_refl).
  cbn. lia.
Defined.

(** ** [init] *)

Section InitProperties.
Context {H : Type}.
Variable ext : External H.

(** [init] for an empty device set. *)
Lemma init_empty_spec m debug (s : State H) :
  wp_total (init ext [] m debug)
    (fun _ s' =>
       mode_ s' = CUDA_MALLOC /\
       debug_ s' = debug || bool_decide (is_Some (environ s !! "DEBUG_GPU_MEM"%string)) /\
       cub_allocator s' = cub_allocator s /\
       dev_info_ s' = dev_info_ s /\ world s' = world s /\
       trace s' = trace s ++ EvGetenv "DEBUG_GPU_MEM"
                    :: (if debug
                        then [EvVLog 1 (LogInitialized "Plain CUDA GPU Allocator")]
                        else [])) s.
Proof.
  unfold init. wp_prims. cbn [length Z.of_nat Z.leb Z.compare].
  repeat wp_step.
  all: rewrite <- ?app_assoc; cbn [app]; by split_and!.
Qed.

(** C6. Called with an empty device set, [init] returns with the mode
    [CUDA_MALLOC] whatever mode was asked for, and neither constructs nor
    touches a pool: the pointer and the table are as before, and the only
    events are the look-up of the environment variable and, for a true
    [debug] argument, the line that names the plain allocator. *)
Theorem init_empty_devices m debug (s : State H) :
  exists s',
    init ext [] m debug s = Ret tt s' /\
    mode_ s' = CUDA_MALLOC /\
    cub_allocator s' = cub_allocator s /\
    dev_info_ s' = dev_info_ s /\ world s' = world s /\
    trace s' = trace s ++ EvGetenv "DEBUG_GPU_MEM"
                 :: (if debug
                     then [EvVLog 1 (LogInitialized "Plain CUDA GPU Allocator")]
                     else []).
Proof.
  destruct (wp_total_Ret _ _ _ (init_empty_spec m debug s))
    as ([] & s' & Hrun & Hm & _ & Hs').
  by exists s'.
Qed.

(** The line of [init] follows the [debug] argument, not the resolved
    flag: with the variable set in the environment and a false argument,
    [debug_] becomes true and yet nothing is logged. *)
Lemma init_line_follows_argument m (s : State H) v :
  environ s !! "DEBUG_GPU_MEM"%string = Some v ->
  exists s',
    init ext [] m false s = Ret tt s' /\
    debug_ s' = true /\
    trace s' = trace s ++ [EvGetenv "DEBUG_GPU_MEM"].
Proof.
  intros Hv.
  destruct (wp_total_Ret _ _ _ (init_empty_spec m false s))
    as ([] & s' & Hrun & _ & Hd & _ & _ & _ & Ht).
  exists s'. split_and!; [done| |done].
  rewrite Hd, Hv. done.
Qed.
End InitProperties.

(** C8. With the environment variable set and a false [debug] argument,
    [init] resolves [debug_] to true, and [update_dev_info] logs on the
    strength of it, but the line naming the allocator is not written:
    it is guarded by the argument, not by the resolved flag. *)
Theorem init_env_override_not_logged :
  exists s',
    init (demo_ext exhausted_DeviceAllocate) [0] CUB_ALLOCATOR false
         (Manager (demo_world 0) {[ "DEBUG_GPU_MEM"%string := "1"%string ]})
    = Ret tt s' /\
    debug_ s' = true /\
    trace s' =
      [EvGetenv "DEBUG_GPU_MEM";
       EvPoolNew (mkPoolArgs 2 6 22 (2 ^ 64 - 1) false true);
       EvGetDevice; EvSetDevice 0; EvGetDeviceProperties 0; EvMemGetInfo;
       EvVLog 1 (LogDeviceProperties 1000); EvVLog 1 (LogMemGetInfo 0 400 1200);
       EvCachedBytes 0; EvSetDevice 0].
Proof. eexists. split; [vm_compute; reflexivity|]. split; reflexivity. Qed.

(** ** [destroy] and the direct mode *)

Section DirectProperties.
Context {H : Type}.
Variable ext : External H.

Lemma destroy_direct (s : State H) :
  mode_ s = CUDA_MALLOC -> destroy ext s = Ret tt s.
Proof.
  intros Hm. destruct s as [m dbg v h w env t]. cbn in Hm. subst m.
  reflexivity.
Qed.

Lemma destroy_spec (s : State H) :
  wp (destroy ext) (fun _ s' => mode_ s' = CUDA_MALLOC) s.
Proof. unfold destroy. wp_prims. repeat wp_step; done. Qed.

Lemma destroy_returns (s : State H) :
  cub_allocator s <> Dangling -> wp_total (destroy ext) (fun _ _ => True) s.
Proof. intros Hh. unfold destroy. wp_prims. repeat wp_step; done. Qed.

(** In direct mode [GetInfo] is the driver's query and nothing else. *)
Lemma GetInfo_direct (s : State H) :
  mode_ s = CUDA_MALLOC ->
  GetInfo s =
    if decide (api_status (world s) MemGetInfo = cudaSuccess)
    then Ret (mem_free (world s) (cur_device (world s)),
              mem_total (world s) (cur_device (world s)))
             (set_trace (trace s ++ [EvMemGetInfo]) s)
    else Abort (CudaCheckFailed (api_status (world s) MemGetInfo)).
Proof.
  intros Hm. unfold GetInfo. wp_prims.
  unfold mbind, M_bind, bind, gets at 1. rewrite Hm.
  cbn. by case_decide.
Qed.

(** In direct mode [try_allocate] is one [cudaMalloc] and nothing else. *)
Lemma try_allocate_direct ptr size strm (s : State H) :
  mode_ s = CUDA_MALLOC ->
  try_allocate ext ptr size strm s =
    match ptr with
    | None => Abort CheckFailed
    | Some slot =>
        let '(status, slot', w') := cudaMalloc ext (world s) slot size in
        Ret (slot', bool_decide (status = cudaSuccess))
            (set_world w' (set_trace (trace s ++ [EvMalloc size]) s))
    end.
Proof.
  intros Hm. unfold try_allocate. wp_prims.
  destruct ptr as [slot|]; [|done].
  unfold mbind, M_bind, bind, gets. cbn. rewrite Hm. cbn.
  by destruct (cudaMalloc ext (world s) slot size) as [[status slot'] w'].
Qed.

Lemma serve_keeps_direct r (s : State H) :
  enters_pool r = false -> mode_ s = CUDA_MALLOC ->
  wp (serve ext r) (fun _ s' => mode_ s' = CUDA_MALLOC) s.
Proof.
  intros Hr Hm. destruct r as [gpus m debug| |ptr size strm|ptr strm|]; cbn [serve].
  - unfold init. wp_prims. repeat wp_step; try done.
    all: exfalso; revert Hr.
    all: match goal with
         | Hc : (if _ then _ else _) = CUB_ALLOCATOR |- _ => revert Hc
         end.
    all: cbn; destruct m, (Z.of_nat (length gpus) <=? 0); cbn; discriminate.
  - apply destroy_spec.
  - unfold try_allocate. wp_prims. repeat wp_step; done.
  - unfold deallocate. wp_prims. repeat wp_step; done.
  - unfold GetInfo. wp_prims. repeat wp_step; done.
Qed.

Lemma never_pooled_direct (s : State H) :
  never_pooled ext s -> mode_ s = CUDA_MALLOC.
Proof.
  induction 1 as [w env|s r s' _ IH Hr E|s w env _ IH]; [done| |done].
  exact (wp_Ret _ _ _ _ _ _ (serve_keeps_direct r s Hr IH) E).
Qed.

Lemma GetInfo_agree (s1 s2 : State H) :
  mode_ s1 = CUDA_MALLOC -> mode_ s2 = CUDA_MALLOC -> world s2 = world s1 ->
  agree s1 s2 (GetInfo s1) (GetInfo s2).
Proof.
  intros H1 H2 Hw. rewrite !GetInfo_direct by done. rewrite Hw.
  case_decide; [|done]. cbn. unfold same_manager. st_simpl.
  split_and!; try done. exists [EvMemGetInfo]. split_and!; try done.
  by repeat constructor.
Qed.

Lemma try_allocate_agree ptr size strm (s1 s2 : State H) :
  mode_ s1 = CUDA_MALLOC -> mode_ s2 = CUDA_MALLOC -> world s2 = world s1 ->
  agree s1 s2 (try_allocate ext ptr size strm s1)
        (try_allocate ext ptr size strm s2).
Proof.
  intros H1 H2 Hw. rewrite !try_allocate_direct by done. rewrite Hw.
  destruct ptr as [slot|]; [|done].
  destruct (cudaMalloc ext (world s1) slot size) as [[status slot'] w'].
  cbn. unfold same_manager. st_simpl.
  split_and!; try done. exists [EvMalloc size]. split_and!; try done.
  by repeat constructor.
Qed.

(** *** The pointer never dangles between two requests *)

Lemma update_dev_info_live d (s : State H) :
  wp (update_dev_info d) (fun _ s' => cub_allocator s' <> Dangling) s.
Proof.
  eapply wp_mono; [apply update_dev_info_spec|].
  intros ? s' (p & old & _ & _ & _ & _ & _ & Hp & _). by rewrite Hp.
Qed.

Lemma refresh_body_live cur i (s : State H) :
  cub_allocator s <> Dangling ->
  wp (refresh_body cur i) (fun _ s' => cub_allocator s' <> Dangling) s.
Proof.
  intros Hs. unfold refresh_body, dev_info_at. repeat wp_step; try done.
  wp_call update_dev_info_live as s1 Hs1.
  wp_prims. repeat wp_step; done.
Qed.

Lemma init_live gpus m debug (s : State H) :
  cub_allocator s <> Dangling ->
  wp (init ext gpus m debug) (fun _ s' => cub_allocator s' <> Dangling) s.
Proof.
  intros Hs. unfold init. wp_prims. repeat wp_step; try done.
  all: assert (Hlen : 0 < Z.of_nat (length gpus))
    by (match goal with
        | Hc : (if ?c then _ else _) = CUB_ALLOCATOR |- _ =>
            destruct (Z.leb_spec (Z.of_nat (length gpus)) 0); [done|lia]
        end).
  all: eapply wp_mono;
    [apply (wp_for_int_first (fun s' => cub_allocator s' <> Dangling));
     [exact Hlen
     |wp_step; [apply update_dev_info_live|done]
     |intros j s0 _; wp_step; [apply update_dev_info_live|done]]
    |cbv beta; intros ? s1 Hs1; by repeat wp_step].
Qed.

Lemma serve_live r (s : State H) :
  cub_allocator s <> Dangling ->
  wp (serve ext r) (fun _ s' => cub_allocator s' <> Dangling) s.
Proof.
  intros Hs. destruct r as [gpus m debug| |ptr size strm|ptr strm|]; cbn [serve].
  - by apply init_live.
  - unfold destroy. wp_prims. repeat wp_step; try done; congruence.
  - unfold try_allocate. wp_prims. repeat wp_step; try done; try congruence.
    wp_call (wp_for_int (fun s' => cub_allocator s' <> Dangling)) as s1 Hs1.
    { intros j s0 Hs0. by apply refresh_body_live. }
    by repeat wp_step.
  - unfold deallocate. wp_prims. repeat wp_step; try done; congruence.
  - unfold GetInfo. wp_prims. repeat wp_step; try done; congruence.
Qed.

Lemma reachable_live (s : State H) :
  reachable ext s -> cub_allocator s <> Dangling.
Proof.
  induction 1 as [w env|s r s' _ IH E|s w env _ IH]; [done| |done].
  exact (wp_Ret _ _ _ _ _ _ (serve_live r s IH) E).
Qed.

(** C5. [destroy] returns whenever the pointer is null or points to a live
    pool, which is so in every state a process can reach; after it the mode
    is [CUDA_MALLOC], a second [destroy] changes nothing, and [GetInfo] and
    [try_allocate] do what they do on a manager that was never put into
    caching-pool mode and sees the same runtime: same result, same runtime
    afterwards, same events, none of the pool. *)
Theorem destroy_resets_to_direct (s : State H) :
  (cub_allocator s <> Dangling \/ reachable ext s ->
   exists s', destroy ext s = Ret tt s') /\
  forall s', destroy ext s = Ret tt s' ->
    mode_ s' = CUDA_MALLOC /\
    destroy ext s' = Ret tt s' /\
    forall s0, never_pooled ext s0 -> world s0 = world s' ->
      agree s' s0 (GetInfo s') (GetInfo s0) /\
      forall ptr size strm,
        agree s' s0 (try_allocate ext ptr size strm s')
              (try_allocate ext ptr size strm s0).
Proof.
  split.
  - intros Hh.
    assert (Hnd : cub_allocator s <> Dangling)
      by (destruct Hh as [Hh|Hh]; [done|by apply reachable_live]).
    destruct (wp_total_Ret _ _ _ (destroy_returns s Hnd))
      as ([] & s' & Hrun & _). by exists s'.
  - intros s' Hrun.
    assert (Hm : mode_ s' = CUDA_MALLOC)
      by exact (wp_Ret _ _ _ _ _ _ (destroy_spec s) Hrun).
    split_and!; [done|by apply destroy_direct|].
    intros s0 Hs0 Hw. apply never_pooled_direct in Hs0. split.
    + by apply GetInfo_agree.
    + intros. by apply try_allocate_agree.
Qed.
End DirectProperties.

(** An example: a manager in caching-pool mode is destroyed; [GetInfo]
    then answers with the driver's figures, as a fresh manager does. *)
Lemma destroy_resets_to_direct_witness :
  exists s',
    destroy (demo_ext exhausted_DeviceAllocate)
            (demo_state 0 [mkDevInfo 400 1000 0] (demo_pool 100)) = Ret tt s' /\
    mode_ s' = CUDA_MALLOC /\
    agree s' (Manager (demo_world 0) ∅) (GetInfo s')
          (GetInfo (Manager (demo_world 0) ∅)).
Proof.
  destruct (destroy_resets_to_direct (demo_ext exhausted_DeviceAllocate)
              (demo_state 0 [mkDevInfo 400 1000 0] (demo_pool 100)))
    as [Hret Hafter].
  destruct Hret as [s' Hrun]; [left; discriminate|].
  exists s'. destruct (Hafter s' Hrun) as (Hm & _ & Hsame).
  split_and!; [done|done|].
  apply Hsame; [apply never_pooled_start|].
  revert Hrun. vm_compute. intros [= <-]. reflexivity.
Defined.

(** ** [try_allocate] after an anomaly *)

Lemma live_at_touch p d d' : live_at (touch_cached_bytes p d) d' = live_at p d'.
Proof.
  unfold live_at, touch_cached_bytes.
  destruct (cached_bytes p !! d) eqn:Ed; [done|]. cbn.
  destruct (decide (d = d')) as [->|Hne].
  - by rewrite lookup_insert_eq, Ed.
  - by rewrite lookup_insert_ne.
Qed.

Lemma refreshed_live {H} (w : World H) p p' d old :
  live_at p' d = live_at p d -> refreshed w p' d old = refreshed w p d old.
Proof. intros E. unfold refreshed. by rewrite E. Qed.

Lemma filter_ext_elem {A} (P Q : A -> Prop) `{!forall x, Decision (P x)}
      `{!forall x, Decision (Q x)} (l : list A) :
  (forall x, x ∈ l -> (P x <-> Q x)) -> filter P l = filter Q l.
Proof.
  induction l as [|x l IH]; intros Hl; [done|].
  rewrite !filter_cons.
  assert (Hx : P x <-> Q x) by (apply Hl; left).
  rewrite IH by (intros y Hy; apply Hl; by right).
  destruct (decide (P x)), (decide (Q x)); tauto.
Qed.

Lemma is_initialized_insert_ne v i j x :
  i <> j -> 0 <= i ->
  is_initialized (<[Z.to_nat i := x]> v) j = is_initialized v j.
Proof. intros. unfold is_initialized. by rewrite vec_at_insert_ne. Qed.

Section AnomalyProperties.
Context {H : Type}.
Variable ext : External H.

(** One refresh, of a device that has an entry. *)
Lemma refresh_one_spec cur i (s : State H) :
  0 <= i < Z.of_nat (length (dev_info_ s)) ->
  wp (refresh_one cur i)
     (fun _ s' => exists p old,
        cub_allocator s = Live p /\ vec_at (dev_info_ s) i = Some old /\
        dev_info_ s' = <[Z.to_nat i := counted cur i (refreshed (world s) p i old)]>
                         (dev_info_ s) /\
        cub_allocator s' = Live (touch_cached_bytes p i) /\
        world s' = world s /\ mode_ s' = mode_ s /\ debug_ s' = debug_ s /\
        environ s' = environ s) s.
Proof.
  intros Hi. unfold refresh_one. wp_step.
  wp_call update_dev_info_spec
    as s1 (p & old & Hp & _ & _ & Hold & Hv & Hp' & Hw & Hm & Hd & He & _).
  rewrite grown_same in * by done.
  assert (Hat : vec_at (dev_info_ s1) i = Some (refreshed (world s) p i old)).
  { rewrite Hv. by apply vec_at_insert_eq. }
  unfold counted. wp_prims. repeat wp_step.
  - exists p, old. rewrite Hv, list_insert_insert_eq. by split_and!.
  - exists p, old. by split_and!.
Qed.
Lemma for_int_unfold fuel i bound (body : Z -> M H unit) s :
  for_int (S fuel) i bound body s =
    if size_t_of_int i <? bound s then
      match body i s with
      | Ret _ s1 =>
          if decide (i = INT_MAX) then Abort SignedOverflow
          else for_int fuel (i + 1) bound body s1
      | Abort f => Abort f
      end
    else Ret tt s.
Proof.
  cbn [for_int]. unfold mbind, M_bind, bind, gets.
  destruct (size_t_of_int i <? bound s); [|done].
  destruct (body i s); [|done]. by destruct (decide (i = INT_MAX)).
Qed.

Lemma refresh_body_unfold cur i (s : State H) :
  refresh_body cur i s =
    match vec_at (dev_info_ s) i with
    | Some e => if decide (total_ e <> 0) then refresh_one cur i s else Ret tt s
    | None => Abort OutOfBounds
    end.
Proof.
  unfold refresh_body, dev_info_at, mbind, M_bind, bind, gets.
  destruct (vec_at (dev_info_ s) i) as [e|]; [|done]. cbn.
  by destruct (decide (total_ e <> 0)).
Qed.

Lemma for_each_cons i l (f : Z -> M H unit) s :
  for_each (i :: l) f s =
    match f i s with
    | Ret _ s1 => for_each l f s1
    | Abort e => Abort e
    end.
Proof. done. Qed.

(** The loop of [try_allocate] refreshes the initialised devices from [i]
    on, one after the other. *)
Lemma refresh_loop_eq cur (n : nat) :
  forall i (s : State H) fuel,
    0 <= i -> Z.of_nat (length (dev_info_ s)) = i + Z.of_nat n ->
    i + Z.of_nat n <= INT_MAX -> (n < fuel)%nat ->
    for_int fuel i dev_info_size (refresh_body cur) s =
      for_each (filter (fun j => is_initialized (dev_info_ s) j)
                       (seqZ i (Z.of_nat n)))
               (refresh_one cur) s.
Proof.
  unfold INT_MAX.
  induction n as [|n IH]; intros i s fuel Hi Hlen Hmax Hfuel;
    (destruct fuel as [|fuel]; [lia|]); rewrite for_int_unfold;
    unfold dev_info_size, INT_MAX; rewrite size_t_of_int_small by lia.
  - destruct (Z.ltb_spec i (Z.of_nat (length (dev_info_ s)))); [lia|done].
  - destruct (Z.ltb_spec i (Z.of_nat (length (dev_info_ s)))); [|lia].
    rewrite seqZ_cons by lia.
    replace (Z.pred (Z.of_nat (S n))) with (Z.of_nat n) by lia.
    replace (Z.succ i) with (i + 1) by lia.
    rewrite refresh_body_unfold.
    destruct (vec_at_is_Some (dev_info_ s) i) as [e He]; [lia|].
    rewrite He.
    destruct (decide (i = 2 ^ 31 - 1)) as [|_]; [lia|].
    destruct (decide (total_ e <> 0)) as [Hne|Heq].
    + rewrite filter_cons_True
        by (unfold is_initialized; rewrite He; apply Is_true_true, negb_true_iff;
            by apply Z.eqb_neq).
      rewrite for_each_cons.
      pose proof (refresh_one_spec cur i s ltac:(lia)) as Hspec.
      destruct (refresh_one cur i s) as [[] s1|f] eqn:Hrun; [|done].
      pose proof (wp_Ret _ _ _ _ _ _ Hspec Hrun)
        as (p & old & _ & _ & Hv & _).
      rewrite IH by (rewrite ?Hv, ?length_insert; lia).
      f_equal. apply filter_ext_elem. intros j Hj.
      apply elem_of_seqZ in Hj. rewrite Hv.
      rewrite is_initialized_insert_ne by lia. done.
    + rewrite filter_cons_False
        by (unfold is_initialized; rewrite He;
            replace (total_ e) with 0 by lia; cbn; tauto).
      apply IH; lia.
Qed.
(** The table after the initialised devices in [l] have been refreshed. *)
Lemma for_each_refresh_spec cur (l : list Z) :
  forall (s : State H) p,
    cub_allocator s = Live p -> NoDup l ->
    (forall j, j ∈ l -> 0 <= j < Z.of_nat (length (dev_info_ s))) ->
    wp (for_each l (refresh_one cur))
       (fun _ s' => exists p',
          cub_allocator s' = Live p' /\
          (forall d, live_at p' d = live_at p d) /\
          world s' = world s /\ mode_ s' = mode_ s /\
          length (dev_info_ s') = length (dev_info_ s) /\
          forall j old,
            vec_at (dev_info_ s) j = Some old ->
            vec_at (dev_info_ s') j
            = Some (if decide (j ∈ l)
                    then counted cur j (refreshed (world s) p j old)
                    else old)) s.
Proof.
  induction l as [|i l IH]; intros s p Hp Hnd Hin.
  - cbn [for_each]. wp_step. exists p. by split_and!.
  - apply NoDup_cons in Hnd as [Hi Hnd].
    cbn [for_each]. wp_step.
    wp_call refresh_one_spec
      as s1 (p0 & oldi & Hp0 & Holdi & Hv & Hp1 & Hw & Hm & _).
    { apply Hin. left. }
    rewrite Hp in Hp0. injection Hp0 as <-.
    assert (Hi0 : 0 <= i < Z.of_nat (length (dev_info_ s))) by (apply Hin; left).
    eapply wp_mono.
    { apply (IH s1 _ Hp1 Hnd). intros j Hj. rewrite Hv, length_insert.
      apply Hin. by right. }
    cbv beta. intros ? s' (p' & Hp' & Hlive & Hw' & Hm' & Hlen & Htab).
    exists p'. split_and!; try congruence.
    + intros d. by rewrite Hlive, live_at_touch.
    + by rewrite Hlen, Hv, length_insert.
    + intros j old Hj. destruct (decide (j = i)) as [->|Hne].
      * rewrite (Htab i (counted cur i (refreshed (world s) p i oldi)))
          by (rewrite Hv; by apply vec_at_insert_eq).
        rewrite Hj in Holdi. injection Holdi as <-.
        rewrite decide_False by done.
        rewrite decide_True by left. done.
      * rewrite (Htab j old) by (rewrite Hv, vec_at_insert_ne by lia; done).
        f_equal. destruct (decide (j ∈ l)) as [Hjl|Hjl].
        -- rewrite decide_True by (by right).
           rewrite Hw. f_equal. apply refreshed_live, live_at_touch.
        -- rewrite decide_False; [done|].
           intros [?|?]%elem_of_cons; done.
Qed.

Lemma elem_of_initialized_devices v j :
  j ∈ initialized_devices v <->
  exists e, vec_at v j = Some e /\ total_ e <> 0.
Proof.
  unfold initialized_devices. rewrite list_elem_of_filter, elem_of_seqZ.
  unfold is_initialized. split.
  - intros [Hi _]. destruct (vec_at v j) as [e|]; [|done].
    exists e. split; [done|]. apply Is_true_true, negb_true_iff in Hi.
    by apply Z.eqb_neq.
  - intros (e & He & Hne). rewrite He. split.
    + apply Is_true_true, negb_true_iff. by apply Z.eqb_neq.
    + apply vec_at_Some in He. lia.
Qed.

(** The refresh asked for by the specification, seen from the table. *)
Lemma refresh_initialized_spec cur (s : State H) p :
  cub_allocator s = Live p ->
  wp (refresh_initialized cur)
     (fun _ s' =>
        world s' = world s /\ mode_ s' = mode_ s /\
        forall j old,
          vec_at (dev_info_ s) j = Some old ->
          vec_at (dev_info_ s') j
          = Some (after_anomaly (world s) p cur j old)) s.
Proof.
  intros Hp. unfold refresh_initialized. do 2 wp_step.
  eapply wp_mono.
  { apply (for_each_refresh_spec cur _ s p Hp).
    - unfold initialized_devices. apply NoDup_filter, NoDup_seqZ.
    - intros j (e & He & _)%elem_of_initialized_devices.
      by eapply vec_at_Some. }
  cbv beta. intros ? s' (p' & _ & _ & Hw & Hm & _ & Htab).
  split_and!; try done. intros j old Hj. rewrite (Htab j old Hj). f_equal.
  unfold after_anomaly. destruct (Z.eqb_spec (total_ old) 0) as [Hz|Hnz].
  - rewrite decide_False; [done|].
    intros (e & He & Hne)%elem_of_initialized_devices. congruence.
  - rewrite decide_True; [done|].
    apply elem_of_initialized_devices. eauto.
Qed.
Lemma refresh_initialized_eq cur (s : State H) :
  Z.of_nat (length (dev_info_ s)) <= INT_MAX ->
  for_int (S (Z.to_nat (Z.of_nat (length (dev_info_ s))))) 0
          (fun s0 => Z.of_nat (length (dev_info_ s0))) (refresh_body cur) s
  = refresh_initialized cur s.
Proof.
  intros Hlen. rewrite Nat2Z.id.
  by rewrite (refresh_loop_eq cur (length (dev_info_ s))) by lia.
Qed.

(** In caching-pool mode [try_allocate] is the procedure of the
    specification. *)
Lemma try_allocate_pool_eq ptr size strm (s : State H) :
  mode_ s = CUB_ALLOCATOR ->
  Z.of_nat (length (dev_info_ s)) <= INT_MAX ->
  try_allocate ext ptr size strm s = try_allocate_pool_spec ext ptr size strm s.
Proof.
  intros Hm Hlen. unfold try_allocate, try_allocate_pool_spec. wp_prims.
  unfold mbind, M_bind, bind, mret, M_ret, ret, gets, modify, emit, abort.
  cbv beta.
  destruct (bool_decide (is_Some ptr)); cbv beta iota; [|done].
  rewrite Hm. cbv beta iota.
  destruct (cub_allocator s) as [|p|]; cbv beta iota; [done| |done].
  st_simpl.
  destruct (DeviceAllocate ext p (world s) (default 0 ptr) size strm)
    as [[[status slot'] p'] w'].
  cbv beta iota. st_simpl.
  destruct (bool_decide (status <> cudaSuccess)
            || bool_decide (last_error w' <> cudaSuccess)); cbv beta iota; [|done].
  st_simpl.
  destruct (decide (api_status w' GetDevice = cudaSuccess)); cbv beta iota; [|done].
  by rewrite refresh_initialized_eq.
Qed.

(** What [try_allocate] does in the anomalous case, as a table. *)
Lemma try_allocate_anomaly_spec slot size strm (s : State H) p status slot' p' w' :
  mode_ s = CUB_ALLOCATOR ->
  Z.of_nat (length (dev_info_ s)) <= INT_MAX ->
  cub_allocator s = Live p ->
  DeviceAllocate ext p (world s) slot size strm = (status, slot', p', w') ->
  status <> cudaSuccess \/ last_error w' <> cudaSuccess ->
  wp (try_allocate ext (Some slot) size strm)
     (fun r s' =>
        r = (slot', bool_decide (status = cudaSuccess)) /\
        mode_ s' = CUB_ALLOCATOR /\
        forall i old,
          vec_at (dev_info_ s) i = Some old ->
          vec_at (dev_info_ s') i
          = Some (after_anomaly w' p' (cur_device w') i old)) s.
Proof.
  intros Hm Hlen Hp Hda Hanom. unfold wp_gen.
  rewrite try_allocate_pool_eq by done.
  change (wp (try_allocate_pool_spec ext (Some slot) size strm)
            (fun r s' =>
               r = (slot', bool_decide (status = cudaSuccess)) /\
               mode_ s' = CUB_ALLOCATOR /\
               forall i old,
                 vec_at (dev_info_ s) i = Some old ->
                 vec_at (dev_info_ s') i
                 = Some (after_anomaly w' p' (cur_device w') i old)) s).
  unfold try_allocate_pool_spec. wp_prims.
  change (default 0 (Some slot)) with slot.
  repeat wp_step.
  - wp_call (refresh_initialized_spec _ _ p') as s1 (Hw & Hm1 & Htab).
    repeat wp_step. split_and!; [done|congruence|exact Htab].
  - exfalso.
    match goal with
    | Hb : _ || _ = false |- _ => apply orb_false_elim in Hb as [Hb1 Hb2]
    end.
    apply bool_decide_eq_false in Hb1, Hb2. tauto.
Qed.
(** C2, as amended. In caching-pool mode, when the pool's status is not
    success or the runtime is left with an error, [try_allocate] is the
    procedure of the specification: it refreshes with [update_dev_info]
    every device whose entry has [total_ <> 0] and counts a flush for the
    active device when it is one of them.  When it returns, the flag is
    true exactly for a successful status, an initialised entry holds the
    refreshed figures (with the flush counted for the active device), and
    an entry with [total_ = 0] is what it was. *)
Theorem try_allocate_refreshes_after_anomaly
        slot size strm (s : State H) p status slot' p' w' :
  mode_ s = CUB_ALLOCATOR ->
  cub_allocator s = Live p ->
  Z.of_nat (length (dev_info_ s)) <= INT_MAX ->
  DeviceAllocate ext p (world s) slot size strm = (status, slot', p', w') ->
  status <> cudaSuccess \/ last_error w' <> cudaSuccess ->
  try_allocate ext (Some slot) size strm s
  = try_allocate_pool_spec ext (Some slot) size strm s /\
  forall r s',
    try_allocate ext (Some slot) size strm s = Ret r s' ->
    r = (slot', bool_decide (status = cudaSuccess)) /\
    forall i old,
      vec_at (dev_info_ s) i = Some old ->
      vec_at (dev_info_ s') i
      = Some (if total_ old =? 0 then old
              else counted (cur_device w') i (refreshed w' p' i old)).
Proof.
  intros Hm Hp Hlen Hda Hanom. split; [by apply try_allocate_pool_eq|].
  intros r s' Hrun.
  pose proof (try_allocate_anomaly_spec slot size strm s p status slot' p' w'
                Hm Hlen Hp Hda Hanom) as Hspec.
  destruct (wp_Ret _ _ _ _ _ _ Hspec Hrun) as (Hr & _ & Htab).
  split; [exact Hr|exact Htab].
Qed.
End AnomalyProperties.


(** ** Fuel *)

Section Fuel.
Context {H : Type}.
Variable ext : External H.

Lemma refresh_body_fuel cur i (s : State H) :
  wp_gen (fun f => f <> OutOfFuel) (refresh_body cur i)
         (fun _ s' => True /\ dev_info_size s' = dev_info_size s) s.
Proof.
  unfold refresh_body, dev_info_at. repeat wp_step; try done.
  eapply wp_mono; [by apply update_dev_info_spec_gen|].
  cbv beta. intros ? s1 (p & old & _ & _ & _ & _ & Hv & _).
  rewrite grown_same in Hv by done.
  wp_prims. repeat wp_step; try done.
  all: split; [done|]; unfold dev_info_size; st_simpl.
  all: by rewrite ?length_insert, Hv, ?length_insert.
Qed.

Lemma try_allocate_fuel ptr size strm (s : State H) :
  try_allocate ext ptr size strm s <> Abort OutOfFuel.
Proof.
  assert (Hw : wp_gen (fun f => f <> OutOfFuel) (try_allocate ext ptr size strm)
                      (fun _ _ => True) s).
  { unfold try_allocate. wp_prims. repeat wp_step; try done.
    eapply wp_mono.
    { apply (wp_for_int_fuel _ (fun _ => True)); try done;
        [intros j s0 _; apply refresh_body_fuel|..];
        unfold INT_MAX, dev_info_size; st_simpl; lia. }
    cbv beta. intros ? s1 _. by repeat wp_step. }
  intros Hrun. by apply (wp_Abort _ _ _ _ _ Hw Hrun).
Qed.

Lemma init_fuel gpus m debug (s : State H) :
  init ext gpus m debug s <> Abort OutOfFuel.
Proof.
  assert (Hw : wp_gen (fun f => f <> OutOfFuel) (init ext gpus m debug)
                      (fun _ _ => True) s).
  { unfold init. wp_prims. repeat wp_step; try done.
    all: eapply wp_mono;
      [apply (wp_for_int_fuel _ (fun _ => True)); try done;
       [intros j s0 _; wp_step; [|done];
        eapply wp_mono; [by apply update_dev_info_spec_gen|done]
       |..]; unfold INT_MAX; st_simpl; lia
      |cbv beta; intros ? s1 _; by repeat wp_step]. }
  intros Hrun. by apply (wp_Abort _ _ _ _ _ Hw Hrun).
Qed.

(** No request stops for want of fuel: the loops of the embedding are
    given as many rounds as the loops of the code can take. *)
Lemma serve_fuel r (s : State H) : serve ext r s <> Abort OutOfFuel.
Proof.
  destruct r as [gpus m debug| |ptr size strm|ptr strm|]; cbn [serve].
  - apply init_fuel.
  - intros Hrun.
    assert (Hw : wp_gen (fun f => f <> OutOfFuel) (destroy ext) (fun _ _ => True) s)
      by (unfold destroy; wp_prims; repeat wp_step; done).
    by apply (wp_Abort _ _ _ _ _ Hw Hrun).
  - unfold mbind, M_bind, bind.
    pose proof (try_allocate_fuel ptr size strm s) as Hf.
    destruct (try_allocate ext ptr size strm s); [done|congruence].
  - intros Hrun.
    assert (Hw : wp_gen (fun f => f <> OutOfFuel) (deallocate ext ptr strm)
                        (fun _ _ => True) s)
      by (unfold deallocate; wp_prims; repeat wp_step; done).
    by apply (wp_Abort _ _ _ _ _ Hw Hrun).
  - intros Hrun.
    assert (Hw : wp_gen (fun f => f <> OutOfFuel) (GetInfo ≫= fun _ => mret tt)
                        (fun _ _ => True) s)
      by (unfold GetInfo; wp_prims; repeat wp_step; done).
    by apply (wp_Abort _ _ _ _ _ Hw Hrun).
Qed.
End Fuel.
(** An example: the pool is exhausted while device 0 is active and
    initialised; its entry is refreshed and its flush counted. *)
Lemma try_allocate_refreshes_after_anomaly_witness :
  exists s',
    try_allocate (demo_ext exhausted_DeviceAllocate) (Some 0) 10 0
                 (demo_state 0 [mkDevInfo 50 900 7] (demo_pool 100))
    = Ret (0, false) s' /\
    vec_at (dev_info_ s') 0 = Some (mkDevInfo 500 1000 8).
Proof.
  eexists. split; [vm_compute; reflexivity|].
  destruct (try_allocate_refreshes_after_anomaly
              (demo_ext exhausted_DeviceAllocate) 0 10 0
              (demo_state 0 [mkDevInfo 50 900 7] (demo_pool 100))
              (demo_pool 100) cudaErrorMemoryAllocation 0 (demo_pool 100)
              (set_last_error cudaErrorMemoryAllocation (demo_world 0))
              eq_refl eq_refl ltac:(vm_compute; discriminate) eq_refl
              ltac:(left; discriminate))
    as [_ Hres].
  destruct (Hres _ _ ltac:(vm_compute; reflexivity)) as [_ Htab].
  exact (Htab 0 (mkDevInfo 50 900 7) eq_refl).
Defined.

(** A residual error alone: the allocation succeeded after a retry inside
    the pool; [try_allocate] returns true, and the table is refreshed and
    the flush counted all the same. *)
Example try_allocate_residual_error_succeeds :
  exists s',
    try_allocate (demo_ext retried_DeviceAllocate) (Some 0) 10 0
                 (demo_state 0 [mkDevInfo 50 900 7] (demo_pool 100))
    = Ret (4096, true) s' /\
    dev_info_ s' = [mkDevInfo 500 1000 8] /\
    last_error (world s') = cudaSuccess.
Proof.
  eexists. split; [vm_compute; reflexivity|]. split; reflexivity.
Qed.

(** C2, as stated, fails: the manager was initialised for device 1 only,
    device 0 is the active one when the pool runs out of memory;
    [try_allocate] returns false, refreshes device 1 and counts the flush
    for nobody: the counter of the active device is 0 before and after. *)
Lemma try_allocate_active_device_not_counted :
  exists s1 s2,
    init (demo_ext exhausted_DeviceAllocate) [1] CUB_ALLOCATOR false
         (Manager (demo_world 0) ∅) = Ret tt s1 /\
    cur_device (world s1) = 0 /\
    dev_info_ s1 = [mkDevInfo 0 0 0; mkDevInfo 400 1000 0] /\
    try_allocate (demo_ext exhausted_DeviceAllocate) (Some 0) 10 0 s1
    = Ret (0, false) s2 /\
    dev_info_ s2 = [mkDevInfo 0 0 0; mkDevInfo 400 1000 0].
Proof.
  eexists _, _. split; [vm_compute; reflexivity|].
  split; [reflexivity|]. split; [reflexivity|].
  split; [vm_compute; reflexivity|reflexivity].
Qed.

(** * Further properties of the manager *)

(** ** The table under [update_dev_info] *)

Lemma vec_at_grown_old d v j e :
  vec_at v j = Some e -> vec_at (grown d v) j = Some e.
Proof.
  intros Hj. unfold grown, vec_resize. case_match; [|done].
  pose proof (vec_at_Some _ _ _ Hj) as Hb. apply Z.ltb_lt in H.
  unfold vec_at in *. case_decide; [|done].
  rewrite lookup_app_l by (rewrite length_take; lia).
  rewrite lookup_take_lt by lia. done.
Qed.

Lemma vec_at_grown_gap d v j :
  Z.of_nat (length v) <= j <= d ->
  vec_at (grown d v) j = Some DevInfo_default.
Proof.
  intros Hj. unfold grown, vec_resize.
  destruct (Z.ltb_spec (Z.of_nat (length v)) (d + 1)); [|lia].
  unfold vec_at. case_decide; [|lia].
  rewrite lookup_app_r by (rewrite length_take; lia).
  rewrite length_take. apply lookup_replicate_2. lia.
Qed.

Lemma length_grown d v :
  Z.of_nat (length (grown d v)) = Z.max (Z.of_nat (length v)) (d + 1).
Proof.
  unfold grown.
  destruct (Z.ltb_spec (Z.of_nat (length v)) (d + 1)); [|lia].
  rewrite length_vec_resize. lia.
Qed.

Section TableProperties.
Context {H : Type}.

(** X1. [update_dev_info] touches the entry of its device only: the other
    entries of the table stay, the table grows to hold the device when it
    did not, the entries it creates below the device are default ones
    (total 0, hence uninitialised), and the flush counter of the device is
    kept (0 for a new entry). *)
Theorem update_dev_info_frame d (s s' : State H) :
  update_dev_info d s = Ret tt s' ->
  Z.of_nat (length (dev_info_ s'))
  = Z.max (Z.of_nat (length (dev_info_ s))) (d + 1) /\
  (forall j e, j <> d -> vec_at (dev_info_ s) j = Some e ->
               vec_at (dev_info_ s') j = Some e) /\
  (forall j, Z.of_nat (length (dev_info_ s)) <= j < d ->
             vec_at (dev_info_ s') j = Some DevInfo_default) /\
  exists e', vec_at (dev_info_ s') d = Some e' /\
             flush_count_ e'
             = match vec_at (dev_info_ s) d with
               | Some e => flush_count_ e
               | None => 0
               end.
Proof.
  intros E.
  destruct (update_dev_info_Ret d s s' E)
    as (p & old & _ & Hd & _ & Hold & Hv & _).
  pose proof (vec_at_Some _ _ _ Hold) as Hb.
  rewrite Hv. split_and!.
  - by rewrite length_insert, length_grown.
  - intros j e Hne Hj. rewrite vec_at_insert_ne by done.
    by apply vec_at_grown_old.
  - intros j Hj. rewrite vec_at_insert_ne by lia.
    apply vec_at_grown_gap. lia.
  - eexists. split; [by apply vec_at_insert_eq|]. cbn.
    destruct (vec_at (dev_info_ s) d) as [e|] eqn:He.
    + rewrite (vec_at_grown_old d _ _ _ He) in Hold. by injection Hold as <-.
    + apply vec_at_None in He.
      rewrite vec_at_grown_gap in Hold by lia. by injection Hold as <-.
Qed.
End TableProperties.

Lemma update_dev_info_frame_witness :
  update_dev_info 2 (demo_state 0 [mkDevInfo 50 900 7] (demo_pool 0))
  = Ret tt demo_grown /\
  Z.of_nat (length (dev_info_ demo_grown)) = 3 /\
  vec_at (dev_info_ demo_grown) 0 = Some (mkDevInfo 50 900 7) /\
  vec_at (dev_info_ demo_grown) 1 = Some DevInfo_default.
Proof.
  assert (E : update_dev_info 2 (demo_state 0 [mkDevInfo 50 900 7] (demo_pool 0))
              = Ret tt demo_grown) by (vm_compute; reflexivity).
  split; [exact E|].
  destruct (update_dev_info_frame 2 _ _ E) as (Hlen & Hold & Hgap & _).
  split; [exact Hlen|]. split.
  - apply (Hold 0); [discriminate|reflexivity].
  - apply (Hgap 1). cbn. lia.
Defined.

(** ** [update_dev_info] twice, and on a device that does not exist *)

Section UpdateProperties.
Context {H : Type}.

(** When [update_dev_info] returns, the runtime had answered success to
    each of its calls. *)
Lemma update_dev_info_statuses d (s : State H) :
  wp (update_dev_info d) (fun _ _ => update_statuses_ok (world s) d) s.
Proof.
  unfold update_dev_info, update_statuses_ok. wp_prims.
  repeat wp_step; by split_and!.
Qed.

(** [update_dev_info] returns when the runtime answers success, the pool
    is alive and the table can hold the device. *)
Lemma update_dev_info_returns d (s : State H) p :
  update_statuses_ok (world s) d ->
  cub_allocator s = Live p ->
  0 <= d < INT_MAX ->
  wp_total (update_dev_info d) (fun _ _ => True) s.
Proof.
  unfold update_statuses_ok, INT_MAX.
  intros (Hg & Hs & Hp & Hm & Hr) Hl Hd.
  assert (Hsz : size_t_of_int (d + 1) = d + 1)
    by (apply size_t_of_int_small; lia).
  assert (Hmax : ~ vector_max_size < d + 1)
    by (unfold vector_max_size; intros Hlt;
        assert (2 ^ 31 <= (2 ^ 63 - 1) / 24) by (by vm_compute); lia).
  unfold update_dev_info. wp_prims. rewrite Hsz.
  repeat wp_step; try done; try lia.
  all: unfold INT_MAX in *; try lia.
  all: match goal with
       | Hn : vec_at _ _ = None |- _ => apply vec_at_None in Hn; apply Hn
       end.
  - rewrite length_vec_resize. lia.
  - match goal with Hb : (_ <? _) = false |- _ => apply Z.ltb_ge in Hb end. lia.
Qed.

(** X2. A second [update_dev_info] of the same device, made straight after
    the first, returns too and leaves the table, the pool and the runtime
    as the first left them: the refresh is idempotent. *)
Theorem update_dev_info_twice d (s s1 : State H) :
  d <= INT_MAX ->
  update_dev_info d s = Ret tt s1 ->
  exists s2,
    update_dev_info d s1 = Ret tt s2 /\
    dev_info_ s2 = dev_info_ s1 /\
    cub_allocator s2 = cub_allocator s1 /\
    world s2 = world s1.
Proof.
  intros Hint E.
  pose proof (wp_Ret _ _ _ _ _ _ (update_dev_info_statuses d s) E) as Hst.
  destruct (update_dev_info_Ret d s s1 E)
    as (p & old & Hp & Hd & Hne & Hold & Hv & Hp1 & Hw & _).
  pose proof (vec_at_Some _ _ _ Hold) as Hb.
  assert (Hret : wp_total (update_dev_info d) (fun _ _ => True) s1).
  { apply (update_dev_info_returns d s1 (touch_cached_bytes p d));
      [by rewrite Hw|done|lia]. }
  destruct (wp_total_Ret _ _ _ Hret) as ([] & s2 & E2 & _).
  exists s2. split; [exact E2|].
  destruct (update_dev_info_Ret d s1 s2 E2)
    as (p1 & old1 & Hq & _ & _ & Hold1 & Hv2 & Hp2 & Hw2 & _).
  rewrite Hp1 in Hq. injection Hq as <-.
  assert (Hin : 0 <= d < Z.of_nat (length (dev_info_ s1)))
    by (rewrite Hv, length_insert; lia).
  rewrite grown_same in Hold1, Hv2 by done.
  assert (Hold1' : old1 = refreshed (world s) p d old).
  { rewrite Hv, vec_at_insert_eq in Hold1 by done. by injection Hold1. }
  split_and!.
  - rewrite Hv2, Hold1', Hw. rewrite Hv at 2. rewrite Hv, list_insert_insert_eq.
    f_equal. unfold refreshed. cbn. by rewrite live_at_touch.
  - rewrite Hp2, Hp1. f_equal. unfold touch_cached_bytes.
    destruct (cached_bytes p !! d) eqn:Ec; [by rewrite Ec|].
    cbn. by rewrite lookup_insert_eq.
  - done.
Qed.

End UpdateProperties.

Lemma update_dev_info_twice_witness :
  update_dev_info 1 (demo_state 0 [] (demo_pool 0)) = Ret tt demo_updated /\
  exists s2,
    update_dev_info 1 demo_updated = Ret tt s2 /\
    dev_info_ s2 = dev_info_ demo_updated.
Proof.
  assert (E : update_dev_info 1 (demo_state 0 [] (demo_pool 0)) = Ret tt demo_updated)
    by (vm_compute; reflexivity).
  split; [exact E|].
  destruct (update_dev_info_twice 1 _ _ ltac:(by vm_compute) E)
    as (s2 & E2 & Hv & _).
  exists s2. split; [exact E2|exact Hv].
Defined.


(** ** [GetInfo] after a refresh, twice, and in direct mode *)

Section GetInfoMore.
Context {H : Type}.

(** What a returning [GetInfo] found in caching-pool mode. *)
Lemma GetInfo_pool_inv (s : State H) :
  mode_ s = CUB_ALLOCATOR ->
  wp GetInfo
     (fun r s1 => exists p e,
        api_status (world s) GetDevice = cudaSuccess /\
        cub_allocator s = Live p /\
        vec_at (dev_info_ s) (cur_device (world s)) = Some e /\
        r = (size_t_sub (free_ e) (live_at p (cur_device (world s))), total_ e) /\
        cub_allocator s1 = Live (touch_cached_bytes p (cur_device (world s))) /\
        world s1 = world s /\ dev_info_ s1 = dev_info_ s /\
        mode_ s1 = mode_ s) s.
Proof.
  intros Hm. unfold GetInfo. wp_prims. repeat wp_step.
  all: eexists _, _; unfold live_at, touch_cached_bytes.
  all: repeat match goal with
              | Hc : cached_bytes _ !! _ = _ |- _ => rewrite Hc; clear Hc
              end.
  all: by split_and!.
Qed.

(** X4. The round trip the code is written for: straight after a refresh
    of the active device in caching-pool mode, [GetInfo] returns the
    clamped total and the refreshed free bytes less the live bytes; when
    the driver's free bytes and the live bytes together do not exceed the
    total, that is exactly the driver's free memory. *)
Theorem GetInfo_after_update (s s1 : State H) p :
  mode_ s = CUB_ALLOCATOR ->
  cub_allocator s = Live p ->
  update_dev_info (cur_device (world s)) s = Ret tt s1 ->
  exists s2,
    GetInfo s1
    = Ret (size_t_sub
             (Z.min (Z.min (totalGlobalMem (world s) (cur_device (world s)))
                           (mem_total (world s) (cur_device (world s))))
                    (size_t_add (mem_free (world s) (cur_device (world s)))
                                (live_at p (cur_device (world s)))))
             (live_at p (cur_device (world s))),
           Z.min (totalGlobalMem (world s) (cur_device (world s)))
                 (mem_total (world s) (cur_device (world s)))) s2 /\
    (0 <= mem_free (world s) (cur_device (world s)) ->
     0 <= live_at p (cur_device (world s)) ->
     mem_free (world s) (cur_device (world s)) + live_at p (cur_device (world s))
     <= Z.min (totalGlobalMem (world s) (cur_device (world s)))
              (mem_total (world s) (cur_device (world s))) ->
     Z.min (totalGlobalMem (world s) (cur_device (world s)))
           (mem_total (world s) (cur_device (world s))) < 2 ^ 64 ->
     exists s2', GetInfo s1
                 = Ret (mem_free (world s) (cur_device (world s)),
                        Z.min (totalGlobalMem (world s) (cur_device (world s)))
                              (mem_total (world s) (cur_device (world s)))) s2').
Proof.
  intros Hm Hp E. set (d := cur_device (world s)) in *.
  pose proof (wp_Ret _ _ _ _ _ _ (update_dev_info_statuses d s) E)
    as (Hg & _).
  destruct (update_dev_info_Ret d s s1 E)
    as (p0 & old & Hp0 & Hd & _ & Hold & Hv & Hp1 & Hw & Hm1 & _).
  rewrite Hp in Hp0. injection Hp0 as <-.
  pose proof (vec_at_Some _ _ _ Hold) as Hb.
  assert (He : vec_at (dev_info_ s1) (cur_device (world s1))
               = Some (refreshed (world s) p d old)).
  { rewrite Hw, Hv. by apply vec_at_insert_eq. }
  assert (Hspec := GetInfo_pool_spec s1 (touch_cached_bytes p d) _
                     ltac:(congruence) ltac:(by rewrite Hw) Hp1 He).
  destruct (wp_total_Ret _ _ _ Hspec) as (r & s2 & Hrun & -> & _).
  rewrite Hw, live_at_touch in Hrun. fold d in Hrun. cbn in Hrun.
  exists s2. split; [exact Hrun|].
  intros Hf Hl Hle Hlt. exists s2. rewrite Hrun. do 2 f_equal.
  unfold size_t_sub, size_t_add, size_t_wrap.
  rewrite (Z.mod_small (_ + _)) by lia.
  rewrite Z.min_r by lia.
  replace (mem_free (world s) d + live_at p d - live_at p d)
    with (mem_free (world s) d) by lia.
  apply Z.mod_small. lia.
Qed.

(** X5. [GetInfo] only looks: when it returns, the table and the runtime
    are what they were, and a second [GetInfo] returns the same figures. *)
Theorem GetInfo_twice (s s1 : State H) r :
  GetInfo s = Ret r s1 ->
  dev_info_ s1 = dev_info_ s /\ world s1 = world s /\ mode_ s1 = mode_ s /\
  exists s2, GetInfo s1 = Ret r s2.
Proof.
  intros E. destruct (mode_ s) eqn:Hm.
  - rewrite GetInfo_direct in E by done.
    destruct (decide (api_status (world s) MemGetInfo = cudaSuccess)) as [Hok|];
      [|done].
    injection E as <- <-. split_and!; try done.
    rewrite GetInfo_direct by done. st_simpl.
    rewrite decide_True by done. eauto.
  - destruct (wp_Ret _ _ _ _ _ _ (GetInfo_pool_inv s Hm) E)
      as (p & e & Hg & Hp & He & -> & Hp1 & Hw & Hv & Hm1).
    split_and!; try congruence.
    assert (Hspec := GetInfo_pool_spec s1
                       (touch_cached_bytes p (cur_device (world s))) e
                       ltac:(congruence) ltac:(by rewrite Hw) Hp1
                       ltac:(by rewrite Hw, Hv)).
    destruct (wp_total_Ret _ _ _ Hspec) as (r & s2 & Hrun & -> & _).
    exists s2. by rewrite Hrun, Hw, live_at_touch.
Qed.

(** X6. In direct mode [GetInfo] is the driver's query and nothing else: it
    returns the driver's free and total bytes of the active device as they
    are, whatever the table and the pool pointer hold, and a failing query
    is fatal. *)
Theorem GetInfo_direct_mode (s : State H) :
  mode_ s = CUDA_MALLOC ->
  (api_status (world s) MemGetInfo = cudaSuccess ->
   GetInfo s = Ret (mem_free (world s) (cur_device (world s)),
                    mem_total (world s) (cur_device (world s)))
                   (set_trace (trace s ++ [EvMemGetInfo]) s)) /\
  (api_status (world s) MemGetInfo <> cudaSuccess ->
   GetInfo s = Abort (CudaCheckFailed (api_status (world s) MemGetInfo))).
Proof.
  intros Hm. rewrite GetInfo_direct by done.
  split; intros Hs; by case_decide.
Qed.
End GetInfoMore.

Lemma GetInfo_after_update_witness :
  update_dev_info 0 (demo_state 0 [] (demo_pool 100)) = Ret tt demo_primed /\
  exists s2, GetInfo demo_primed = Ret (400, 1000) s2.
Proof.
  assert (E : update_dev_info 0 (demo_state 0 [] (demo_pool 100))
              = Ret tt demo_primed) by (vm_compute; reflexivity).
  split; [exact E|].
  destruct (GetInfo_after_update (demo_state 0 [] (demo_pool 100)) demo_primed
              (demo_pool 100) eq_refl eq_refl E) as (s2 & _ & Hexact).
  apply Hexact; by vm_compute.
Defined.

Lemma GetInfo_twice_witness :
  exists s1 s2,
    GetInfo (demo_state 0 [mkDevInfo 400 1000 0] (demo_pool 100))
    = Ret (300, 1000) s1 /\
    GetInfo s1 = Ret (300, 1000) s2.
Proof.
  eexists. 
  assert (E : GetInfo (demo_state 0 [mkDevInfo 400 1000 0] (demo_pool 100))
              = Ret (300, 1000) _) by (vm_compute; reflexivity).
  destruct (GetInfo_twice _ _ _ E) as (_ & _ & _ & s2 & E2).
  exists s2. split; [exact E|exact E2].
Defined.

Lemma GetInfo_direct_mode_witness :
  GetInfo (Manager (demo_world 0) ∅)
  = Ret (400, 1200) (set_trace [EvMemGetInfo] (Manager (demo_world 0) ∅)).
Proof.
  apply (GetInfo_direct_mode (Manager (demo_world 0) ∅) eq_refl). reflexivity.
Defined.

(** ** Loops, with the round as part of the invariant *)

Section LoopRules.
Context {H : Type}.

(** A loop that returns has made its rounds one after the other, from
    the first index to one that is not below the bound. *)
Lemma wp_gen_for_int_idx (E : Fault -> Prop) (I : Z -> State H -> Prop)
      bound body :
  E SignedOverflow -> E OutOfFuel ->
  (forall j s, 0 <= j <= INT_MAX -> j < bound s -> I j s ->
               wp_gen E (body j) (fun _ => I (j + 1)) s) ->
  forall fuel i s,
    0 <= i <= INT_MAX -> I i s ->
    wp_gen E (for_int fuel i bound body)
           (fun _ s' => exists k, i <= k /\ bound s' <= k /\ I k s') s.
Proof.
  intros Hov Hfuel Hbody. unfold INT_MAX in *.
  induction fuel as [|fuel IH]; intros i s Hi Hs; [by apply wp_abort|].
  cbn [for_int]. apply wp_bind, wp_gets.
  rewrite size_t_of_int_small by lia.
  destruct (Z.ltb_spec i (bound s)).
  - apply wp_bind. eapply wp_mono; [apply Hbody; [lia|done|done]|].
    intros ? s1 Hs1. cbv beta.
    destruct (decide (i = INT_MAX)); [by apply wp_abort|].
    unfold INT_MAX in *.
    eapply wp_mono; [apply IH; [lia|done]|].
    intros ? s2 (k & ? & ? & ?). exists k. split_and!; [lia|done|done].
  - apply wp_mret. exists i. split_and!; [lia|done|done].
Qed.

(** A loop whose rounds all return and keep the bound, returns when
    the bound is an [int] and the fuel covers the rounds left. *)
Lemma wp_gen_for_int_total (E : Fault -> Prop) (I : Z -> State H -> Prop)
      bound body n :
  n <= INT_MAX ->
  (forall j s, 0 <= j < n -> I j s -> bound s = n ->
               wp_gen E (body j) (fun _ s' => I (j + 1) s' /\ bound s' = n) s) ->
  forall fuel i s,
    0 <= i <= INT_MAX -> I i s -> bound s = n ->
    Z.max 0 (n - i) < Z.of_nat fuel ->
    wp_gen E (for_int fuel i bound body)
           (fun _ s' => I (Z.max i n) s' /\ bound s' = n) s.
Proof.
  intros Hn Hbody. unfold INT_MAX in *.
  induction fuel as [|fuel IH]; intros i s Hi Hs Hb Hf; [lia|].
  cbn [for_int]. apply wp_bind, wp_gets.
  rewrite size_t_of_int_small by lia.
  destruct (Z.ltb_spec i (bound s)) as [Hlt|Hge].
  - apply wp_bind. eapply wp_mono; [apply Hbody; [lia|done|done]|].
    intros ? s1 [Hs1 Hb1]. cbv beta.
    destruct (decide (i = INT_MAX)); [unfold INT_MAX in *; lia|].
    eapply wp_mono; [apply IH; [lia|done|done|lia]|].
    intros ? s2 [Hs2 Hb2]. cbv beta.
    by replace (Z.max i n) with (Z.max (i + 1) n) by lia.
  - apply wp_mret. by replace (Z.max i n) with i by lia.
Qed.
End LoopRules.

(** ** The pool pointer in the states a process can reach *)


Section PointerProperties.
Context {H : Type}.
Variable ext : External H.










End PointerProperties.





(** ** [init] in caching-pool mode *)

Lemma pool_args_touch p d : pool_args (touch_cached_bytes p d) = pool_args p.
Proof. unfold touch_cached_bytes. by case_match. Qed.

Lemma refreshed_primed {H} (w : World H) p p' d old :
  (forall d', live_at p' d' = live_at p d') ->
  primed w p d (refreshed w p' d old).
Proof. intros Hl. unfold primed, refreshed. cbn. by rewrite Hl. Qed.

Section InitPool.
Context {H : Type}.
Variable ext : External H.

(** The loop of [init] refreshes every device of the list and leaves the
    entries of the other devices alone. *)
Lemma init_loop_spec gpus (s : State H) p0 :
  cub_allocator s = Live p0 ->
  wp (init_loop gpus)
     (fun _ s' =>
        world s' = world s /\ mode_ s' = mode_ s /\ debug_ s' = debug_ s /\
        (exists p', cub_allocator s' = Live p' /\ pool_args p' = pool_args p0 /\
                    forall d, live_at p' d = live_at p0 d) /\
        (forall d, d ∈ gpus ->
                   exists e, vec_at (dev_info_ s') d = Some e /\
                             primed (world s) p0 d e) /\
        (forall i e, i ∉ gpus -> vec_at (dev_info_ s) i = Some e ->
                     vec_at (dev_info_ s') i = Some e)) s.
Proof.
  intros Hp. unfold init_loop.
  eapply wp_mono.
  { apply (wp_gen_for_int_idx _
             (fun k s' =>
                world s' = world s /\ mode_ s' = mode_ s /\
                debug_ s' = debug_ s /\
                (exists p', cub_allocator s' = Live p' /\
                            pool_args p' = pool_args p0 /\
                            forall d, live_at p' d = live_at p0 d) /\
                (forall j d, 0 <= j < k -> gpus !! Z.to_nat j = Some d ->
                             exists e, vec_at (dev_info_ s') d = Some e /\
                                       primed (world s) p0 d e) /\
                (forall i e, i ∉ gpus -> vec_at (dev_info_ s) i = Some e ->
                             vec_at (dev_info_ s') i = Some e)));
      [exact I|exact I| |unfold INT_MAX; lia|].
    - intros j s1 Hj Hlt (Hw & Hm & Hd & (p1 & Hp1 & Ha1 & Hl1) & Hpr & Hfr).
      destruct (gpus !! Z.to_nat j) as [d|] eqn:Hg; [|done].
      wp_call update_dev_info_spec
        as s2 (p & old & Hp2 & Hd0 & _ & Hold & Hv & Hp' & Hw2 & Hm2 & Hd2 & _).
      rewrite Hp1 in Hp2. injection Hp2 as <-.
      pose proof (vec_at_Some _ _ _ Hold) as Hb.
      split_and!; try congruence.
      + exists (touch_cached_bytes p1 d). split_and!; [done| |].
        * by rewrite pool_args_touch.
        * intros d'. by rewrite live_at_touch.
      + intros j' d' Hj' Hg'. rewrite Hv.
        destruct (decide (d' = d)) as [->|Hne].
        * eexists. split; [by apply vec_at_insert_eq|].
          rewrite Hw. by apply refreshed_primed.
        * rewrite vec_at_insert_ne by (done || lia).
          assert (j' <> j) by congruence.
          destruct (Hpr j' d' ltac:(lia) Hg') as (e & He & Hprim).
          exists e. split; [by apply vec_at_grown_old|done].
      + intros i e Hi He. rewrite Hv.
        assert (i <> d).
        { intros ->. apply Hi. by eapply list_elem_of_lookup_2. }
        rewrite vec_at_insert_ne by (done || lia).
        apply vec_at_grown_old. by apply Hfr.
    - split_and!; try done; [eauto|]. intros j d Hj. lia. }
  cbv beta.
  intros ? s' (k & Hk & Hb & Hw & Hm & Hd & Hpool & Hpr & Hfr).
  split_and!; try done.
  intros d (j & Hj)%list_elem_of_lookup_1.
  pose proof (lookup_lt_Some _ _ _ Hj) as Hlt.
  apply (Hpr (Z.of_nat j) d); [lia|by rewrite Nat2Z.id].
Qed.

Lemma init_pool_spec gpus debug (s : State H) :
  gpus <> [] ->
  wp (init ext gpus CUB_ALLOCATOR debug)
     (fun _ s' => exists p0 p',
        new_CachingDeviceAllocator ext (init_pool_args debug s)
                                   (world_after_delete ext s)
        = Some (p0, world s') /\
        cub_allocator s' = Live p' /\ pool_args p' = pool_args p0 /\
        (forall d, live_at p' d = live_at p0 d) /\
        mode_ s' = CUB_ALLOCATOR /\
        debug_ s'
        = debug || bool_decide (is_Some (environ s !! "DEBUG_GPU_MEM"%string)) /\
        (forall d, d ∈ gpus ->
                   exists e, vec_at (dev_info_ s') d = Some e /\
                             primed (world s') p0 d e) /\
        (forall i e, i ∉ gpus -> vec_at (dev_info_ s) i = Some e ->
                     vec_at (dev_info_ s') i = Some e)) s.
Proof.
  intros Hne.
  assert (Hl : (Z.of_nat (length gpus) <=? 0) = false)
    by (apply Z.leb_gt; destruct gpus; [done|cbn [length]; lia]).
  unfold init, init_pool_args, world_after_delete. rewrite Hl. wp_prims.
  change (size_t_wrap (-1)) with (2 ^ 64 - 1).
  repeat wp_step.
  - wp_call (init_loop_spec gpus _ c)
      as s1 (Hw & Hm & Hd & (p' & Hp' & Ha & Hlv) & Hpr & Hfr).
    repeat wp_step.
    all: exists c, p'; by split_and!.
  - exfalso.
    match goal with
    | Hc : cub_allocator s = Null, Hb : negb _ = true |- _ =>
        rewrite Hc in Hb; discriminate Hb
    end.
  - wp_call (init_loop_spec gpus _ c)
      as s1 (Hw & Hm & Hd & (p' & Hp' & Ha & Hlv) & Hpr & Hfr).
    repeat wp_step.
    all: exists c, p'; by split_and!.
  - eapply wp_mono.
    { apply (wp_for_int_first (fun _ => False)).
      - destruct gpus; [done|cbn [length]; lia].
      - destruct gpus as [|d gpus']; [done|]. cbn [lookup list_lookup Z.to_nat].
        wp_call update_dev_info_spec as s1 (? & ? & Hp & _). done.
      - by intros j s0 []. }
    by intros ? s0 [].
Qed.




End InitPool.



(** ** [destroy], [init] for the direct mode, and the pool *)

Section DestroyProperties.
Context {H : Type}.
Variable ext : External H.

Lemma destroy_pool_spec (s : State H) p :
  mode_ s = CUB_ALLOCATOR -> cub_allocator s = Live p ->
  wp_total (destroy ext)
    (fun _ s' =>
       mode_ s' = CUDA_MALLOC /\ cub_allocator s' = Null /\
       world s' = delete_CachingDeviceAllocator ext p (world s) /\
       dev_info_ s' = dev_info_ s /\ debug_ s' = debug_ s /\
       environ s' = environ s /\
       trace s' = trace s ++ [EvPoolDelete]) s.
Proof.
  intros Hm Hp. unfold destroy. wp_prims. repeat wp_step. by split_and!.
Qed.

(** X11. In caching-pool mode with a live pool, [destroy] deletes the
    pool, nulls the pointer and sets the direct mode; it keeps the table,
    so that the figures of the devices outlive the pool they were taken
    with. *)
Theorem destroy_pool_mode (s : State H) p :
  mode_ s = CUB_ALLOCATOR -> cub_allocator s = Live p ->
  exists s',
    destroy ext s = Ret tt s' /\
    mode_ s' = CUDA_MALLOC /\ cub_allocator s' = Null /\
    world s' = delete_CachingDeviceAllocator ext p (world s) /\
    dev_info_ s' = dev_info_ s /\
    trace s' = trace s ++ [EvPoolDelete].
Proof.
  intros Hm Hp.
  destruct (wp_total_Ret _ _ _ (destroy_pool_spec s p Hm Hp))
    as ([] & s' & E & ? & ? & ? & ? & _ & _ & ?).
  by exists s'.
Qed.

Lemma init_direct_spec gpus debug (s : State H) :
  wp_total (init ext gpus CUDA_MALLOC debug)
    (fun _ s' =>
       mode_ s' = CUDA_MALLOC /\
       debug_ s'
       = debug || bool_decide (is_Some (environ s !! "DEBUG_GPU_MEM"%string)) /\
       cub_allocator s' = cub_allocator s /\
       dev_info_ s' = dev_info_ s /\ world s' = world s /\
       trace s' = trace s ++ EvGetenv "DEBUG_GPU_MEM"
                    :: (if debug
                        then [EvVLog 1 (LogInitialized "Plain CUDA GPU Allocator")]
                        else [])) s.
Proof.
  unfold init. wp_prims.
  replace (if Z.of_nat (length gpus) <=? 0 then CUDA_MALLOC else CUDA_MALLOC)
    with CUDA_MALLOC by (by case_match).
  repeat wp_step.
  all: rewrite <- ?app_assoc; cbn [app]; by split_and!.
Qed.

(** X12. Asked for the direct mode, [init] returns whatever the device
    list, and leaves the pool pointer, the table and the runtime as they
    are: a pool that is alive is not deleted, and since the mode is now
    [CUDA_MALLOC] a [destroy] that follows does nothing either. *)
Theorem init_direct_keeps_pool gpus debug (s : State H) :
  exists s',
    init ext gpus CUDA_MALLOC debug s = Ret tt s' /\
    mode_ s' = CUDA_MALLOC /\
    cub_allocator s' = cub_allocator s /\
    dev_info_ s' = dev_info_ s /\ world s' = world s /\
    destroy ext s' = Ret tt s'.
Proof.
  destruct (wp_total_Ret _ _ _ (init_direct_spec gpus debug s))
    as ([] & s' & E & Hm & _ & Hp & Hv & Hw & _).
  exists s'. split_and!; try done. by apply destroy_direct.
Qed.

(** X13. The table outlives a [destroy] and an [init] for the caching
    pool: the entry of a device that is not in the new list is, after
    both, what it was before, figures of the former pool included. *)
Theorem destroy_init_keeps_entries gpus debug (s s1 s2 : State H) i e :
  destroy ext s = Ret tt s1 ->
  init ext gpus CUB_ALLOCATOR debug s1 = Ret tt s2 ->
  i ∉ gpus ->
  vec_at (dev_info_ s) i = Some e ->
  vec_at (dev_info_ s2) i = Some e.
Proof.
  intros E1 E2 Hi He.
  assert (Hv : dev_info_ s1 = dev_info_ s).
  { assert (Hw : wp (destroy ext) (fun _ s' => dev_info_ s' = dev_info_ s) s)
      by (unfold destroy; wp_prims; repeat wp_step; done).
    exact (wp_Ret _ _ _ _ _ _ Hw E1). }
  destruct gpus as [|d gpus'].
  - destruct (wp_total_Ret _ _ _ (init_empty_spec ext CUB_ALLOCATOR debug s1))
      as ([] & s2' & E2' & _ & _ & _ & Hv2 & _).
    rewrite E2 in E2'. injection E2' as <-. by rewrite Hv2, Hv.
  - destruct (wp_Ret _ _ _ _ _ _
                (init_pool_spec ext (d :: gpus') debug s1 ltac:(done)) E2)
      as (p0 & p' & _ & _ & _ & _ & _ & _ & _ & Hfr).
    apply Hfr; [done|]. by rewrite Hv.
Qed.
End DestroyProperties.

Lemma destroy_pool_mode_witness :
  exists s',
    destroy (demo_ext serving_DeviceAllocate) demo_init = Ret tt s' /\
    cub_allocator s' = Null /\ dev_info_ s' = [mkDevInfo 400 1000 0].
Proof.
  destruct (destroy_pool_mode (demo_ext serving_DeviceAllocate) demo_init _
              eq_refl eq_refl) as (s' & E & _ & Hn & _ & Hv & _).
  by exists s'.
Defined.

Lemma destroy_init_keeps_entries_witness :
  exists s1 s2,
    destroy (demo_ext serving_DeviceAllocate)
            (demo_state 0 [mkDevInfo 400 1000 0; mkDevInfo 77 1000 3]
                        (demo_pool 0)) = Ret tt s1 /\
    init (demo_ext serving_DeviceAllocate) [0] CUB_ALLOCATOR false s1
    = Ret tt s2 /\
    vec_at (dev_info_ s2) 1 = Some (mkDevInfo 77 1000 3).
Proof.
  destruct (destroy (demo_ext serving_DeviceAllocate)
              (demo_state 0 [mkDevInfo 400 1000 0; mkDevInfo 77 1000 3]
                          (demo_pool 0))) as [[] s1|f] eqn:E1;
    [|by vm_compute in E1].
  destruct (init (demo_ext serving_DeviceAllocate) [0] CUB_ALLOCATOR false s1)
    as [[] s2|f] eqn:E2.
  - exists s1, s2. split_and!; [done|done|].
    apply (destroy_init_keeps_entries (demo_ext serving_DeviceAllocate)
             [0] false _ s1 s2 1 _ E1 E2); [|reflexivity].
    intros Hx%list_elem_of_singleton. discriminate Hx.
  - exfalso. vm_compute in E1. injection E1 as <-.
    vm_compute in E2. discriminate E2.
Defined.

(** ** [deallocate] *)

Section DeallocateProperties.
Context {H : Type}.
Variable ext : External H.

(** X14. When [deallocate] returns, the mode and the table are what they
    were.  For a null pointer nothing at all has happened, whatever the
    mode and the pool pointer; otherwise exactly one release was made, by
    the pool in caching-pool mode and by [cudaFree] in direct mode, and its
    status was success. *)
Theorem deallocate_returns ptr strm (s s' : State H) :
  deallocate ext ptr strm s = Ret tt s' ->
  mode_ s' = mode_ s /\ dev_info_ s' = dev_info_ s /\
  (ptr = 0 -> s' = s) /\
  (ptr <> 0 ->
   match mode_ s with
   | CUB_ALLOCATOR =>
       exists p p',
         cub_allocator s = Live p /\
         DeviceFree ext p (world s) ptr = (cudaSuccess, p', world s') /\
         cub_allocator s' = Live p' /\
         trace s' = trace s ++ [EvDeviceFree ptr]
   | CUDA_MALLOC =>
       cudaFree ext (world s) ptr = (cudaSuccess, world s') /\
       cub_allocator s' = cub_allocator s /\
       trace s' = trace s ++ [EvFree ptr]
   end).
Proof.
  intros E.
  assert (Hw : wp (deallocate ext ptr strm)
                 (fun _ s' =>
                    mode_ s' = mode_ s /\ dev_info_ s' = dev_info_ s /\
                    (ptr = 0 -> s' = s) /\
                    (ptr <> 0 ->
                     match mode_ s with
                     | CUB_ALLOCATOR =>
                         exists p p',
                           cub_allocator s = Live p /\
                           DeviceFree ext p (world s) ptr
                           = (cudaSuccess, p', world s') /\
                           cub_allocator s' = Live p' /\
                           trace s' = trace s ++ [EvDeviceFree ptr]
                     | CUDA_MALLOC =>
                         cudaFree ext (world s) ptr = (cudaSuccess, world s') /\
                         cub_allocator s' = cub_allocator s /\
                         trace s' = trace s ++ [EvFree ptr]
                     end)) s).
  { unfold deallocate. wp_prims. repeat wp_step.
    all: split_and!; try done.
    all: intros _.
    all: repeat match goal with
                | Hm : mode_ _ = _ |- _ => rewrite Hm
                end.
    all: first [by split_and! | eexists _, _; by split_and!]. }
  exact (wp_Ret _ _ _ _ _ _ Hw E).
Qed.

(** X15. A release that fails is fatal: for a pointer that is not null,
    [deallocate] stops with the status of [cudaFree] in direct mode, and
    with the status of the pool in caching-pool mode, when that status is
    not success. *)
Theorem deallocate_failure_is_fatal ptr strm (s : State H) :
  ptr <> 0 ->
  (mode_ s = CUDA_MALLOC ->
   (cudaFree ext (world s) ptr).1 <> cudaSuccess ->
   deallocate ext ptr strm s
   = Abort (CudaCheckFailed (cudaFree ext (world s) ptr).1)) /\
  (forall p,
      mode_ s = CUB_ALLOCATOR -> cub_allocator s = Live p ->
      (DeviceFree ext p (world s) ptr).1.1 <> cudaSuccess ->
      deallocate ext ptr strm s
      = Abort (CudaCheckFailed (DeviceFree ext p (world s) ptr).1.1)).
Proof.
  intros Hptr. split.
  - intros Hm Hf.
    enough (Hw : wp_gen (fun f => f = CudaCheckFailed
                                      (cudaFree ext (world s) ptr).1)
                   (deallocate ext ptr strm) (fun _ _ => False) s).
    { by destruct (wp_only_Abort _ _ _ Hw) as (f & -> & ->). }
    unfold deallocate. wp_prims. repeat wp_step; done.
  - intros p Hm Hp Hf.
    enough (Hw : wp_gen (fun f => f = CudaCheckFailed
                                      (DeviceFree ext p (world s) ptr).1.1)
                   (deallocate ext ptr strm) (fun _ _ => False) s).
    { by destruct (wp_only_Abort _ _ _ Hw) as (f & -> & ->). }
    unfold deallocate. wp_prims. repeat wp_step; done.
Qed.
End DeallocateProperties.

Lemma deallocate_returns_witness :
  exists s',
    deallocate (demo_ext serving_DeviceAllocate) 4096 0 demo_init = Ret tt s' /\
    dev_info_ s' = dev_info_ demo_init.
Proof.
  destruct (deallocate (demo_ext serving_DeviceAllocate) 4096 0 demo_init)
    as [[] s'|f] eqn:E; [|by vm_compute in E].
  exists s'. split; [done|].
  by destruct (deallocate_returns _ _ _ _ _ E) as (_ & Hv & _).
Defined.

Lemma deallocate_failure_is_fatal_witness :
  deallocate failing_free_ext 4096 0 (Manager (demo_world 0) ∅)
  = Abort (CudaCheckFailed (cudaErrorOther 4)) /\
  deallocate failing_free_ext 4096 0 demo_init
  = Abort (CudaCheckFailed (cudaErrorOther 4)).
Proof.
  destruct (deallocate_failure_is_fatal failing_free_ext 4096 0
              (Manager (demo_world 0) ∅) ltac:(done)) as [Hd _].
  destruct (deallocate_failure_is_fatal failing_free_ext 4096 0
              demo_init ltac:(done)) as [_ Hp].
  split.
  - by apply Hd.
  - by apply (Hp _ eq_refl eq_refl).
Defined.

(** ** [try_allocate] when nothing is wrong, and when it returns *)

Section TryAllocateProperties.
Context {H : Type}.
Variable ext : External H.

Lemma wp_total_conj {A} (m : M H A) (Q : A -> State H -> Prop) s :
  wp_total m (fun _ _ => True) s -> wp m Q s -> wp_total m Q s.
Proof. unfold wp_gen. by destruct (m s). Qed.

(** [update_dev_info] returns, and then has done its work, when the
    runtime answers success, the pool is alive and the device an index. *)
Lemma update_dev_info_total d (s : State H) p :
  update_statuses_ok (world s) d ->
  cub_allocator s = Live p ->
  0 <= d < INT_MAX ->
  wp_total (update_dev_info d)
    (fun _ s' => exists old,
       vec_at (grown d (dev_info_ s)) d = Some old /\
       dev_info_ s' = <[Z.to_nat d := refreshed (world s) p d old]>
                        (grown d (dev_info_ s)) /\
       cub_allocator s' = Live (touch_cached_bytes p d) /\
       world s' = world s /\ mode_ s' = mode_ s /\ debug_ s' = debug_ s) s.
Proof.
  intros Hst Hp Hd. apply wp_total_conj.
  - by eapply update_dev_info_returns.
  - wp_call update_dev_info_spec
      as s' (p1 & old & Hp1 & _ & _ & Hold & Hv & Hp' & Hw & Hm & Hdb & _).
    rewrite Hp in Hp1. injection Hp1 as <-. exists old. by split_and!.
Qed.

(** X16. In caching-pool mode, an allocation the pool reports as
    successful, with no error left with the runtime, is all that
    [try_allocate] does: it returns true with the pool's pointer, asks
    for the last error once, and neither asks for the active device nor
    looks at the table. *)
Theorem try_allocate_clean slot size strm (s : State H) p slot' p' w' :
  mode_ s = CUB_ALLOCATOR -> cub_allocator s = Live p ->
  DeviceAllocate ext p (world s) slot size strm = (cudaSuccess, slot', p', w') ->
  last_error w' = cudaSuccess ->
  exists s',
    try_allocate ext (Some slot) size strm s = Ret (slot', true) s' /\
    dev_info_ s' = dev_info_ s /\ cub_allocator s' = Live p' /\
    world s' = set_last_error cudaSuccess w' /\ mode_ s' = CUB_ALLOCATOR /\
    trace s' = trace s ++ [EvDeviceAllocate size strm; EvGetLastError].
Proof.
  intros Hm Hp Hda Herr.
  assert (Hw : wp_total (try_allocate ext (Some slot) size strm)
                 (fun r s' =>
                    r = (slot', true) /\
                    dev_info_ s' = dev_info_ s /\ cub_allocator s' = Live p' /\
                    world s' = set_last_error cudaSuccess w' /\
                    mode_ s' = CUB_ALLOCATOR /\
                    trace s' = trace s
                               ++ [EvDeviceAllocate size strm; EvGetLastError]) s).
  { unfold try_allocate. wp_prims.
    change (default 0 (Some slot)) with slot.
    repeat wp_step.
    all: try (exfalso;
              match goal with
              | Hb : _ || _ = true |- _ =>
                  apply orb_true_iff in Hb as [Hb|Hb];
                  apply bool_decide_eq_true in Hb; by apply Hb
              end).
    rewrite <- ?app_assoc. by split_and!. }
  destruct (wp_total_Ret _ _ _ Hw) as (r & s' & E & -> & Hrest).
  by exists s'.
Qed.

(** X17. In direct mode [try_allocate] never stops once it has a slot:
    it makes one [cudaMalloc], returns whether its status is success,
    and leaves the table and the pool pointer alone; an error of the
    runtime is neither fetched nor cleared. *)
Theorem try_allocate_direct_mode slot size strm (s : State H) :
  mode_ s = CUDA_MALLOC ->
  exists s',
    try_allocate ext (Some slot) size strm s
    = Ret ((cudaMalloc ext (world s) slot size).1.2,
           bool_decide ((cudaMalloc ext (world s) slot size).1.1 = cudaSuccess))
          s' /\
    dev_info_ s' = dev_info_ s /\ cub_allocator s' = cub_allocator s /\
    world s' = (cudaMalloc ext (world s) slot size).2 /\
    trace s' = trace s ++ [EvMalloc size].
Proof.
  intros Hm. rewrite try_allocate_direct by done.
  destruct (cudaMalloc ext (world s) slot size) as [[status slot'] w'].
  eexists. by split_and!.
Qed.

Lemma refresh_body_total cur j (s : State H) :
  0 <= j < dev_info_size s -> dev_info_size s <= INT_MAX ->
  (forall i, 0 <= i < dev_info_size s -> update_statuses_ok (world s) i) ->
  (exists p, cub_allocator s = Live p) ->
  wp_total (refresh_body cur j)
    (fun _ s' => world s' = world s /\ (exists p, cub_allocator s' = Live p) /\
                 mode_ s' = mode_ s /\
                 dev_info_size s' = dev_info_size s) s.
Proof.
  unfold dev_info_size. intros Hj Hn Hst [p Hp].
  unfold refresh_body, dev_info_at. repeat wp_step.
  - eapply wp_mono.
    { apply (update_dev_info_total j s p); [apply Hst; lia|done|lia]. }
    cbv beta. intros ? s1 (old & Hold & Hv & Hp1 & Hw1 & Hm1 & _).
    rewrite grown_same in Hv by lia.
    assert (Hlen : length (dev_info_ s1) = length (dev_info_ s))
      by (by rewrite Hv, length_insert).
    unfold flush_count_incr. wp_prims. repeat wp_step.
    + rewrite length_insert. split_and!; eauto; congruence.
    + match goal with
      | Hx : vec_at _ _ = None |- _ => apply vec_at_None in Hx; apply Hx; lia
      end.
    + split_and!; eauto; congruence.
  - split_and!; eauto.
  - match goal with
    | Hx : vec_at _ _ = None |- _ => apply vec_at_None in Hx; apply Hx; lia
    end.
Qed.

(** X18. In caching-pool mode a failed allocation is not fatal: when the
    runtime answers success to the queries of the refresh,
    [try_allocate] returns, with the flag telling whether the pool's
    status was success, with the runtime's last error cleared and with a
    table of the same length. *)
Theorem try_allocate_pool_returns
        slot size strm (s : State H) p status slot' p' w' :
  mode_ s = CUB_ALLOCATOR -> cub_allocator s = Live p ->
  Z.of_nat (length (dev_info_ s)) <= INT_MAX ->
  DeviceAllocate ext p (world s) slot size strm = (status, slot', p', w') ->
  api_status w' GetDevice = cudaSuccess ->
  (forall i, 0 <= i < Z.of_nat (length (dev_info_ s)) ->
             update_statuses_ok w' i) ->
  exists s',
    try_allocate ext (Some slot) size strm s
    = Ret (slot', bool_decide (status = cudaSuccess)) s' /\
    last_error (world s') = cudaSuccess /\
    mode_ s' = CUB_ALLOCATOR /\
    length (dev_info_ s') = length (dev_info_ s).
Proof.
  intros Hm Hp Hlen Hda Hg Hst.
  assert (Hw : wp_total (try_allocate ext (Some slot) size strm)
                 (fun r s' =>
                    r = (slot', bool_decide (status = cudaSuccess)) /\
                    last_error (world s') = cudaSuccess /\
                    mode_ s' = CUB_ALLOCATOR /\
                    length (dev_info_ s') = length (dev_info_ s)) s).
  { unfold try_allocate. wp_prims.
    change (default 0 (Some slot)) with slot.
    repeat wp_step.
    2: by split_and!.
    eapply wp_mono.
    { apply (wp_gen_for_int_total _
               (fun _ s1 => world s1 = set_last_error cudaSuccess w' /\
                            (exists p1, cub_allocator s1 = Live p1) /\
                            mode_ s1 = CUB_ALLOCATOR)
               dev_info_size _ (Z.of_nat (length (dev_info_ s))) Hlen).
      - intros j s1 Hj (Hw1 & Hp1 & Hm1) Hb.
        eapply wp_mono.
        { apply (refresh_body_total _ j s1); rewrite ?Hb, ?Hw1; done. }
        cbv beta. intros ? s2 (? & ? & ? & ?). split_and!; congruence.
      - unfold INT_MAX. lia.
      - st_simpl. split_and!; eauto.
      - done.
      - st_simpl. lia. }
    cbv beta. intros ? s1 [(Hw1 & Hp1 & Hm1) Hb].
    repeat wp_step. rewrite Hw1. split_and!; try done.
    all: unfold dev_info_size in Hb; lia. }
  destruct (wp_total_Ret _ _ _ Hw) as (r & s' & E & -> & Hrest).
  by exists s'.
Qed.
End TryAllocateProperties.

Lemma try_allocate_clean_witness :
  exists s',
    try_allocate (demo_ext serving_DeviceAllocate) (Some 0) 256 0 demo_init
    = Ret (4096, true) s' /\
    dev_info_ s' = dev_info_ demo_init.
Proof.
  destruct (try_allocate_clean (demo_ext serving_DeviceAllocate) 0 256 0
              demo_init _ _ _ _ eq_refl eq_refl eq_refl eq_refl)
    as (s' & E & Hv & _).
  by exists s'.
Defined.

Lemma try_allocate_direct_mode_witness :
  exists s',
    try_allocate (demo_ext serving_DeviceAllocate) (Some 0) 256 0
                 (Manager (demo_world 0) ∅)
    = Ret (4096, true) s'.
Proof.
  destruct (try_allocate_direct_mode (demo_ext serving_DeviceAllocate) 0 256 0
              (Manager (demo_world 0) ∅) eq_refl) as (s' & E & _).
  by exists s'.
Defined.

Lemma try_allocate_pool_returns_witness :
  exists s',
    try_allocate (demo_ext exhausted_DeviceAllocate) (Some 0) 256 0 demo_init
    = Ret (0, false) s'.
Proof.
  destruct (try_allocate_pool_returns (demo_ext exhausted_DeviceAllocate)
              0 256 0 demo_init _ _ _ _ _ eq_refl eq_refl
              ltac:(by vm_compute) eq_refl eq_refl
              ltac:(intros i _; by repeat split))
    as (s' & E & _).
  by exists s'.
Defined.

(** ** The flush counts *)

Lemma flush_counted_refl cur k v : flush_counted cur k v v.
Proof. intros i e He. exists e. auto. Qed.

Section FlushProperties.
Context {H : Type}.
Variable ext : External H.

Lemma update_dev_info_flush cur k d (s : State H) v0 :
  flush_counted cur k v0 (dev_info_ s) ->
  wp (update_dev_info d)
     (fun _ s' => world s' = world s /\ mode_ s' = mode_ s /\
                  flush_counted cur k v0 (dev_info_ s')) s.
Proof.
  intros Hfc.
  wp_call update_dev_info_spec
    as s' (p & old & _ & Hd & _ & Hold & Hv & _ & Hw & Hm & _).
  split_and!; [done..|].
  intros i e He. destruct (Hfc i e He) as (e' & He' & Hfl).
  pose proof (vec_at_Some _ _ _ Hold) as Hb.
  rewrite Hv. destruct (decide (i = d)) as [->|Hne].
  - rewrite vec_at_insert_eq by done. eexists. split; [done|].
    apply (vec_at_grown_old d) in He'. rewrite Hold in He'.
    injection He' as ->. exact Hfl.
  - rewrite vec_at_insert_ne by (done || lia).
    exists e'. split; [by apply vec_at_grown_old|done].
Qed.

Lemma refresh_body_flush cur j (s : State H) v0 :
  flush_counted cur j v0 (dev_info_ s) ->
  wp (refresh_body cur j)
     (fun _ s' => world s' = world s /\ mode_ s' = mode_ s /\
                  flush_counted cur (j + 1) v0 (dev_info_ s')) s.
Proof.
  intros Hfc.
  assert (Hweak : forall v, flush_counted cur j v0 v ->
                            flush_counted cur (j + 1) v0 v).
  { intros v Hv i e He. destruct (Hv i e He) as (e' & He' & [Hfl|Hfl]);
      exists e'; (split; [done|]); [by left|right]. split_and!; [lia|tauto..]. }
  unfold refresh_body, dev_info_at. repeat wp_step; try done.
  2: by split_and!; [..|apply Hweak].
  wp_call (update_dev_info_flush cur j j s v0) as s1 (Hw1 & Hm1 & Hfc1).
  wp_step; [|by split_and!; [..|apply Hweak]].
  unfold flush_count_incr. wp_prims. repeat wp_step; try done.
  split_and!; [done..|].
  intros i e He. destruct (Hfc1 i e He) as (e' & He' & Hfl).
  destruct (decide (i = cur)) as [->|Hne].
  - rewrite vec_at_insert_eq by lia. eexists. split; [done|]. cbn.
    match goal with
    | Hx : vec_at (dev_info_ s1) _ = Some ?x |- _ =>
        rewrite Hx in He'; injection He' as <-
    end.
    destruct Hfl as [->|Hfl]; [|lia]. right. split_and!; [lia|done..].
  - rewrite vec_at_insert_ne by (done || lia).
    exists e'. split; [done|].
    destruct Hfl as [Hfl|Hfl]; [by left|right]. split_and!; [lia|tauto..].
Qed.

Lemma flush_counted_kept cur v v' i e :
  flush_counted cur 0 v v' -> vec_at v i = Some e ->
  exists e', vec_at v' i = Some e' /\ flush_count_ e' = flush_count_ e.
Proof.
  intros Hfc He. destruct (Hfc i e He) as (e' & He' & [Hfl|Hfl]); [by eauto|].
  apply vec_at_Some in He. lia.
Qed.

Lemma try_allocate_flush ptr size strm (s : State H) :
  wp (try_allocate ext ptr size strm)
     (fun _ s' =>
        (mode_ s = CUDA_MALLOC -> dev_info_ s' = dev_info_ s) /\
        exists k, flush_counted (cur_device (world s')) k
                                (dev_info_ s) (dev_info_ s')) s.
Proof.
  unfold try_allocate. wp_prims. repeat wp_step; try done.
  - split; [done|]. exists 0. apply flush_counted_refl.
  - eapply wp_mono.
    { apply (wp_gen_for_int_idx _
               (fun k s1 => cur_device (world s1) = cur_device w /\
                            flush_counted (cur_device w) k
                                          (dev_info_ s) (dev_info_ s1)));
        [exact I|exact I| |unfold INT_MAX; lia|].
      - intros j s1 _ _ [Hw1 Hfc1].
        wp_call (refresh_body_flush (cur_device w) j s1 (dev_info_ s))
          as s2 (Hw2 & _ & Hfc2).
        split; [congruence|done].
      - st_simpl. split; [done|]. apply flush_counted_refl. }
    cbv beta. intros ? s1 (k & _ & _ & Hw1 & Hfc1).
    repeat wp_step. split; [done|]. exists k. by rewrite Hw1.
  - split; [done|]. exists 0. apply flush_counted_refl.
Qed.

Lemma init_flush gpus m debug (s : State H) :
  wp (init ext gpus m debug)
     (fun _ s' => flush_counted 0 0 (dev_info_ s) (dev_info_ s')) s.
Proof.
  unfold init. wp_prims. repeat wp_step; try done.
  all: try apply flush_counted_refl.
  all: eapply wp_mono;
    [apply (wp_for_int
              (fun s1 => flush_counted 0 0 (dev_info_ s) (dev_info_ s1)));
     [intros j s0 Hs0; wp_step; [|done];
      eapply wp_mono;
      [by apply (update_dev_info_flush 0 0)|by intros ? ? (_ & _ & ?)]
     |apply flush_counted_refl]
    |cbv beta; intros ? s1 Hs1; by repeat wp_step].
Qed.

(** X19. No method drops an entry of the table, and the flush counts
    change in one place only: after any method that returns, an entry
    that was in the table is still there, with the flush count it had,
    except that a [try_allocate] in caching-pool mode may have counted one
    flush, modulo 2^32, for the device that is active. *)
Theorem flush_counts_change_in_try_allocate r (s s' : State H) i e :
  serve ext r s = Ret tt s' ->
  vec_at (dev_info_ s) i = Some e ->
  exists e',
    vec_at (dev_info_ s') i = Some e' /\
    (flush_count_ e' = flush_count_ e \/
     (is_try_allocate r = true /\ mode_ s = CUB_ALLOCATOR /\
      i = cur_device (world s') /\
      flush_count_ e' = unsigned_wrap (flush_count_ e + 1))).
Proof.
  intros E He.
  assert (Hw : wp (serve ext r)
                 (fun _ s' =>
                    (mode_ s = CUDA_MALLOC \/ is_try_allocate r = false ->
                     flush_counted 0 0 (dev_info_ s) (dev_info_ s')) /\
                    exists k, flush_counted (cur_device (world s')) k
                                            (dev_info_ s) (dev_info_ s')) s).
  { destruct r as [gpus m debug| |ptr size strm|ptr strm|]; cbn [serve].
    - wp_call init_flush as s1 Hfc0. split; [done|]. exists 0.
      intros j x Hx.
      destruct (flush_counted_kept _ _ _ _ _ Hfc0 Hx) as (x' & ? & ?).
      exists x'. auto.
    - unfold destroy. wp_prims. repeat wp_step; try done.
      all: split; [intros _|exists 0]; apply flush_counted_refl.
    - wp_step. wp_call try_allocate_flush as s1 [Hd Hk]. wp_step.
      split; [|done].
      intros [Hm|?]; [|done]. rewrite (Hd Hm). apply flush_counted_refl.
    - unfold deallocate. wp_prims. repeat wp_step; try done.
      all: split; [intros _|exists 0]; apply flush_counted_refl.
    - unfold GetInfo. wp_prims. repeat wp_step; try done.
      all: split; [intros _|exists 0]; apply flush_counted_refl. }
  destruct (wp_Ret _ _ _ _ _ _ Hw E) as [Hkept (k & Hfc)].
  destruct (is_try_allocate r) eqn:Hr, (mode_ s) eqn:Hm.
  2: { destruct (Hfc i e He) as (e' & He' & [Hfl|(_ & Hi & Hfl)]);
         exists e'; (split; [done|]); [by left|by right]. }
  all: destruct (flush_counted_kept _ _ _ _ _ (Hkept ltac:(auto)) He)
    as (e' & He' & Hfl); exists e'; auto.
Qed.
End FlushProperties.

Lemma flush_counts_change_in_try_allocate_witness :
  exists s' e',
    serve (demo_ext exhausted_DeviceAllocate) (ReqTryAllocate (Some 0) 256 0)
          demo_init = Ret tt s' /\
    vec_at (dev_info_ s') 0 = Some e' /\
    (flush_count_ e' = 0 \/
     (true = true /\ CUB_ALLOCATOR = CUB_ALLOCATOR /\
      0 = cur_device (world s') /\ flush_count_ e' = 1)).
Proof.
  destruct (serve (demo_ext exhausted_DeviceAllocate)
              (ReqTryAllocate (Some 0) 256 0) demo_init)
    as [[] s'|f] eqn:E; [|by vm_compute in E].
  destruct (flush_counts_change_in_try_allocate
              (demo_ext exhausted_DeviceAllocate) _ _ _ 0
              (mkDevInfo 400 1000 0) E eq_refl) as (e' & He' & Hfl).
  by exists s', e'.
Defined.

(** ** [init] returns *)

Section InitReturns.
Context {H : Type}.
Variable ext : External H.

(** X20. [init] for the caching pool returns when the pointer is not
    dangling, the constructor succeeds, every listed device is an [int]
    below [INT_MAX] that is not negative, and the runtime the constructor
    leaves answers success to the queries made for each of them. *)
Theorem init_pool_returns gpus debug (s : State H) p0 w0 :
  gpus <> [] ->
  Z.of_nat (length gpus) <= INT_MAX ->
  cub_allocator s <> Dangling ->
  new_CachingDeviceAllocator ext (init_pool_args debug s)
                             (world_after_delete ext s) = Some (p0, w0) ->
  (forall d, d ∈ gpus -> 0 <= d < INT_MAX /\ update_statuses_ok w0 d) ->
  exists s', init ext gpus CUB_ALLOCATOR debug s = Ret tt s' /\
             mode_ s' = CUB_ALLOCATOR /\ world s' = w0.
Proof.
  intros Hne Hlen Hnd Hnew Hok.
  assert (Hl : (Z.of_nat (length gpus) <=? 0) = false)
    by (apply Z.leb_gt; destruct gpus; [done|cbn [length]; lia]).
  unfold init_pool_args, world_after_delete in Hnew.
  enough (Hw : wp_total (init ext gpus CUB_ALLOCATOR debug)
                 (fun _ s' => mode_ s' = CUB_ALLOCATOR /\ world s' = w0) s).
  { destruct (wp_total_Ret _ _ _ Hw) as ([] & s' & E & ?). by exists s'. }
  unfold init. rewrite Hl. wp_prims.
  change (size_t_wrap (-1)) with (2 ^ 64 - 1).
  repeat wp_step; try done.
  all: eapply wp_mono;
    [apply (wp_gen_for_int_total _
              (fun _ s1 => world s1 = w0 /\
                           exists p1, cub_allocator s1 = Live p1)
              _ _ (Z.of_nat (length gpus)) Hlen);
     [intros j s1 Hj [Hw1 [p1 Hp1]] _;
      destruct (lookup_lt_is_Some_2 gpus (Z.to_nat j) ltac:(lia)) as [d Hd];
      rewrite Hd;
      destruct (Hok d (list_elem_of_lookup_2 _ _ _ Hd)) as [Hr Hst];
      eapply wp_mono;
      [apply (update_dev_info_total d s1 p1); [by rewrite Hw1|done|done]
      |cbv beta; intros ? s2 (_ & _ & _ & Hp2 & Hw2 & _);
       split; [split; [congruence|eauto]|done]]
     |unfold INT_MAX; lia
     |st_simpl; split; [|eauto]
     |done
     |lia]
    |cbv beta; intros ? s1 [[Hw1 _] _]; repeat wp_step; by split].
  all: done.
Qed.
End InitReturns.

Lemma init_pool_returns_witness :
  exists s',
    init (demo_ext serving_DeviceAllocate) [0; 2] CUB_ALLOCATOR true
         (Manager (demo_world 0) ∅) = Ret tt s' /\
    mode_ s' = CUB_ALLOCATOR /\ world s' = demo_world 0.
Proof.
  apply (init_pool_returns (demo_ext serving_DeviceAllocate) [0; 2] true
           (Manager (demo_world 0) ∅) (mkPool ∅ (mkPoolArgs 2 6 22 (2 ^ 64 - 1) false true))
           (demo_world 0)); [done|by vm_compute|done|reflexivity|].
  intros d Hd. split; [|by repeat split].
  apply elem_of_cons in Hd as [->|Hd]; [unfold INT_MAX; lia|].
  apply list_elem_of_singleton in Hd as ->. unfold INT_MAX. lia.
Defined.

(** ** The line of [init], and a device that was never refreshed *)

Section LogProperties.
Context {H : Type}.
Variable ext : External H.

Lemma wp_trivial {A} (m : M H A) s : wp m (fun _ _ => True) s.
Proof. unfold wp_gen. by destruct (m s). Qed.

(** X21. With a true [debug] argument the last thing [init] does is to
    log the name of the allocator of the mode it has set, which is the
    direct mode for an empty device list and the mode asked for
    otherwise. *)
Theorem init_logs_resulting_mode gpus m (s s' : State H) :
  init ext gpus m true s = Ret tt s' ->
  mode_ s' = (if decide (gpus = []) then CUDA_MALLOC else m) /\
  last (trace s')
  = Some (EvVLog 1 (LogInitialized
                      (match mode_ s' with
                       | CUB_ALLOCATOR => "Caching (CUB) GPU Allocator"
                       | CUDA_MALLOC => "Plain CUDA GPU Allocator"
                       end)%string)).
Proof.
  intros E.
  assert (Hw : wp (init ext gpus m true)
                 (fun _ s' =>
                    mode_ s' = (if decide (gpus = []) then CUDA_MALLOC else m) /\
                    last (trace s')
                    = Some (EvVLog 1 (LogInitialized
                              (match mode_ s' with
                               | CUB_ALLOCATOR => "Caching (CUB) GPU Allocator"
                               | CUDA_MALLOC => "Plain CUDA GPU Allocator"
                               end)%string))) s).
  { assert (Hmode : (if Z.of_nat (length gpus) <=? 0 then CUDA_MALLOC else m)
                    = (if decide (gpus = []) then CUDA_MALLOC else m)).
    { destruct gpus; [done|]. rewrite decide_False by done.
      by destruct (Z.leb_spec (Z.of_nat (length (z :: gpus))) 0);
        [cbn [length] in *; lia|]. }
    unfold init. rewrite Hmode. wp_prims. repeat wp_step; try done.
    all: try (split; [done|by rewrite last_snoc]).
    all: eapply wp_mono;
      [apply (wp_for_int (fun _ => True));
       [intros; apply wp_trivial|exact I]
      |cbv beta; intros ? s1 _; repeat wp_step;
       split; [done|by rewrite last_snoc]]. }
  exact (wp_Ret _ _ _ _ _ _ Hw E).
Qed.

(** X22. [update_dev_info] for device [d] makes room for the devices
    below [d] without querying them.  When such a device is the active
    one, [GetInfo] takes the empty entry for figures: it reports a total
    of zero, and as free memory zero less the live bytes of that device. *)
Theorem GetInfo_unrefreshed_device d (s s1 : State H) p :
  mode_ s = CUB_ALLOCATOR -> cub_allocator s = Live p ->
  update_dev_info d s = Ret tt s1 ->
  Z.of_nat (length (dev_info_ s)) <= cur_device (world s) < d ->
  exists s2,
    GetInfo s1
    = Ret (size_t_sub 0 (live_at p (cur_device (world s))), 0) s2.
Proof.
  intros Hm Hp E Hcur.
  pose proof (wp_Ret _ _ _ _ _ _ (update_dev_info_statuses d s) E)
    as (Hg & _).
  destruct (update_dev_info_Ret d s s1 E)
    as (p0 & old & Hp0 & Hd & _ & Hold & Hv & Hp1 & Hw & Hm1 & _).
  rewrite Hp in Hp0. injection Hp0 as <-.
  assert (He : vec_at (dev_info_ s1) (cur_device (world s1))
               = Some DevInfo_default).
  { rewrite Hw, Hv, vec_at_insert_ne by lia. apply vec_at_grown_gap. lia. }
  assert (Hspec := GetInfo_pool_spec s1 (touch_cached_bytes p d) _
                     ltac:(congruence) ltac:(by rewrite Hw) Hp1 He).
  destruct (wp_total_Ret _ _ _ Hspec) as (r & s2 & Hrun & -> & _).
  rewrite Hw, live_at_touch in Hrun. by exists s2.
Qed.
End LogProperties.

Lemma init_logs_resulting_mode_witness :
  exists s',
    init (demo_ext serving_DeviceAllocate) [0] CUB_ALLOCATOR true
         (Manager (demo_world 0) ∅) = Ret tt s' /\
    last (trace s')
    = Some (EvVLog 1 (LogInitialized "Caching (CUB) GPU Allocator")).
Proof.
  destruct (init (demo_ext serving_DeviceAllocate) [0] CUB_ALLOCATOR true
              (Manager (demo_world 0) ∅)) as [[] s'|f] eqn:E;
    [|by vm_compute in E].
  destruct (init_logs_resulting_mode _ _ _ _ _ E) as [Hm Hl].
  exists s'. split; [done|]. rewrite Hl, Hm. done.
Defined.

Lemma GetInfo_unrefreshed_device_witness :
  exists s2, GetInfo demo_grown_from_empty = Ret (0, 0) s2.
Proof.
  exact (GetInfo_unrefreshed_device 2 (demo_state 0 [] (demo_pool 0))
           demo_grown_from_empty (demo_pool 0) eq_refl eq_refl
           ltac:(vm_compute; reflexivity) ltac:(by vm_compute)).
Defined.
